(** * vmctl remote read client (app/vmctl/remoteread/remoteread.go)

    A shallow embedding of the remote read client of vmctl: the query
    builder ([query], [toLabelMatchers]), the sample decoder
    ([parseSamples]) and the streaming fetch client ([fetch], [Read]).

    Go values are embedded as follows.
    - [int64] and [int] are integers [Z]; the one arithmetic operation of
      the file ([filter.Max - 1]) has its 64-bit wrap-around written out.
    - [float64] sample values are carried as their IEEE-754 bit pattern
      (the client never computes on them).
    - [[]byte] is [list byte], [string] is [string], slices are lists
      ([append] is [++]).
    - [error] is the inductive type [error]; a nil error is [None].
    - A function returning [(T, error)] with exactly one of them set
      returns [result T]; [parseSamples], which can return samples together
      with an error, returns a pair.
    - A panic is an explicit [Panics] outcome.
    - The effects of [fetch] and [Read] (HTTP exchange, callback, logging,
      sleeping, buffer pool, body close) are threaded through a state
      monad whose state holds the outside world, the callback's own state
      and the trace of effects performed so far.
    - The libraries the client calls (regexp compilation behind
      [labels.NewMatcher], protobuf and snappy codecs, [net/http], the
      chunked stream reader, the XOR chunk decoder) are the fields of the
      class [Collaborators]. *)

From Stdlib Require Import ZArith List String Ascii Bool Lia.
From Stdlib Require Import Strings.Byte.
Import ListNotations.

Local Open Scope Z_scope.
Local Open Scope string_scope.
Local Open Scope list_scope.

Set Implicit Arguments.

(** ** Go scalars *)

Module Int64.
Definition min_int : Z := - 2 ^ 63.
Definition max_int : Z := 2 ^ 63 - 1.
Definition modulus : Z := 2 ^ 64.

Definition in_range (z : Z) : Prop := min_int <= z <= max_int.

(** The value of an integer once stored in an [int64]. *)
Definition wrap (z : Z) : Z := (z - min_int) mod modulus + min_int.

Definition sub (a b : Z) : Z := wrap (a - b).
End Int64.

(** IEEE-754 binary64, as its bit pattern. *)
Definition float64 : Type := Z.

(** ** Errors *)

(** Operands of a format string other than the [%w] one. *)
Inductive fmt_arg : Type :=
| ArgInt (z : Z)
| ArgStr (s : string)
| ArgBytes (b : list byte).

(** Go error values.  [fmt_Errorf] keeps the format string and its operands
    in order; [fmt_ErrorfW] is an [fmt.Errorf] whose format has a [%w] verb
    (or any library error with an [Unwrap] method, such as [*url.Error]):
    [wrapped] is the error it unwraps to. *)
Inductive error : Type :=
| context_Canceled
| io_EOF
| errors_New (msg : string)
| fmt_Errorf (format : string) (args : list fmt_arg)
| fmt_ErrorfW (format : string) (args : list fmt_arg) (wrapped : error).

Inductive result (A : Type) : Type :=
| Ok (a : A)
| Err (err : error).
Arguments Ok {A} a.
Arguments Err {A} err.

(** What a call that may panic ends in. *)
Inductive outcome (A : Type) : Type :=
| Returns (a : A)
| Panics (v : error).
Arguments Returns {A} a.
Arguments Panics {A} v.

Fixpoint list_eqb {A : Type} (eqb : A -> A -> bool) (l1 l2 : list A) : bool :=
  match l1, l2 with
  | [], [] => true
  | x :: l1', y :: l2' => eqb x y && list_eqb eqb l1' l2'
  | _, _ => false
  end.

Definition fmt_arg_eqb (a b : fmt_arg) : bool :=
  match a, b with
  | ArgInt x, ArgInt y => Z.eqb x y
  | ArgStr x, ArgStr y => String.eqb x y
  | ArgBytes x, ArgBytes y => list_eqb Byte.eqb x y
  | _, _ => false
  end.

(** [err == target] on error values. *)
Fixpoint error_eqb (a b : error) : bool :=
  match a, b with
  | context_Canceled, context_Canceled => true
  | io_EOF, io_EOF => true
  | errors_New x, errors_New y => String.eqb x y
  | fmt_Errorf f1 a1, fmt_Errorf f2 a2 =>
      String.eqb f1 f2 && list_eqb fmt_arg_eqb a1 a2
  | fmt_ErrorfW f1 a1 w1, fmt_ErrorfW f2 a2 w2 =>
      String.eqb f1 f2 && list_eqb fmt_arg_eqb a1 a2 && error_eqb w1 w2
  | _, _ => false
  end.

(** [errors.Is]: the error or one it unwraps to equals the target. *)
Fixpoint errors_Is (err target : error) : bool :=
  error_eqb err target
  || match err with
     | fmt_ErrorfW _ _ wrapped => errors_Is wrapped target
     | _ => false
     end.

(** ** Prometheus types used by the client *)

Module labels.
(** [labels.MatchType] is an [int] with four named values. *)
Definition MatchType : Type := Z.
Definition MatchEqual : MatchType := 0.
Definition MatchNotEqual : MatchType := 1.
Definition MatchRegexp : MatchType := 2.
Definition MatchNotRegexp : MatchType := 3.

(** The reserved label holding the metric name. *)
Definition MetricName : string := "__name__".

(** Its compiled regexp is not read by the client. *)
Record Matcher : Type := mkMatcher {
  Type_ : MatchType;
  Name : string;
  Value : string
}.
End labels.

Module prompb.
Inductive LabelMatcher_Type : Type :=
| LabelMatcher_EQ
| LabelMatcher_NEQ
| LabelMatcher_RE
| LabelMatcher_NRE.

Record LabelMatcher : Type := mkLabelMatcher {
  Type_ : LabelMatcher_Type;
  Name : string;
  Value : string
}.

Record Query : Type := mkQuery {
  StartTimestampMs : Z;
  EndTimestampMs : Z;
  Matchers : list LabelMatcher
}.

Inductive ReadRequest_ResponseType : Type :=
| ReadRequest_SAMPLES
| ReadRequest_STREAMED_XOR_CHUNKS.

Record ReadRequest : Type := mkReadRequest {
  Queries : list Query;
  AcceptedResponseTypes : list ReadRequest_ResponseType
}.

Record Label : Type := mkLabel {
  Label_Name : string;
  Label_Value : string
}.

Record Sample : Type := mkSample {
  Timestamp : Z;
  Sample_Value : float64
}.

Record TimeSeries : Type := mkTimeSeries {
  Labels : list Label;
  Samples : list Sample
}.

Record Chunk : Type := mkChunk {
  MinTimeMs : Z;
  MaxTimeMs : Z;
  Chunk_Type : Z;
  Data : list byte
}.

Record ChunkedSeries : Type := mkChunkedSeries {
  Series_Labels : list Label;
  Chunks : list Chunk
}.

Record ChunkedReadResponse : Type := mkChunkedReadResponse {
  ChunkedSeries_ : list ChunkedSeries;
  QueryIndex : Z
}.
End prompb.

Module chunkenc.
(** The [Encoding] value of XOR chunks. *)
Definition EncXOR : Z := 1.

(** An [Iterator] over a decoded chunk, as the script of its answers:
    each element of [steps] is one call of [Next] that returns true, with
    what [At] and [Err] answer after it; [final] is what [Err] answers
    once [Next] has returned false. *)
Record Iterator : Type := mkIterator {
  steps : list (Z * float64 * option error);
  final : option error
}.
End chunkenc.

(** ** The client's own types *)

Definition remoteReadPath : string := "/api/v1/read".
Definition healthPath : string := "/health".

(** [time.Second], in nanoseconds. *)
Definition time_Second : Z := 1000000000.
Definition defaultReadTimeout : Z := 30 * time_Second.

Record Client : Type := mkClient {
  addr : string;
  user : string;
  password : string
}.

Record Filter : Type := mkFilter {
  Min : Z;
  Max : Z;
  Label : string;
  LabelValue : string
}.

(** An [*http.Request] as [fetch] builds it. *)
Record Request : Type := mkRequest {
  Method : string;
  URL : string;
  Header : list (string * string);
  BasicAuth : option (string * string);
  ReqBody : list byte
}.

Record Response : Type := mkResponse {
  StatusCode : Z;
  Body : list byte
}.

Definition http_StatusOK : Z := 200.
Definition http_StatusNoContent : Z := 204.

(** [Header.Add] appends a value, [Header.Set] replaces the values of the
    key. *)
Definition Header_Add (h : list (string * string)) (k v : string) :=
  h ++ [(k, v)].

Definition Header_Set (h : list (string * string)) (k v : string) :=
  filter (fun kv => negb (String.eqb (fst kv) k)) h ++ [(k, v)].

(** ** Effects *)

Inductive Event : Type :=
| EvRequest (req : Request)
| EvReadAll (body : list byte)
| EvBodyClose
| EvPoolGet
| EvPoolPut
| EvCallback (series : prompb.TimeSeries)
| EvLogErrorf (format : string) (attempt : Z) (err : error)
| EvSleep (d : Z).

(** The libraries and the endpoint the client talks to; [W] is the state of
    the outside world (the remote storage and the request context). *)
Class Collaborators (W : Type) : Type := {
  (** [labels.NewFastRegexMatcher]: the error of compiling the pattern. *)
  NewFastRegexMatcher : string -> option error;
  proto_Marshal : prompb.ReadRequest -> result (list byte);
  snappy_Encode : list byte -> list byte;
  (** the error [http.NewRequest] reports for a URL *)
  url_Parse : string -> option error;
  url_Redacted : string -> string;
  (** [c.c.Do(req.WithContext(ctx))] *)
  http_Do : Request -> W -> result Response * W;
  (** [remote.NewChunkedReader] over a body: the successive answers of
      [NextProto] before the end of the stream. *)
  remote_NewChunkedReader : list byte -> list (result prompb.ChunkedReadResponse);
  (** [chunkenc.FromData] followed by [Iterator(nil)] *)
  chunkenc_FromData : Z -> list byte -> result chunkenc.Iterator
}.

(** State threaded through [fetch] and [Read]: the world, the callback's
    state and the effects so far (oldest first). *)
Record State (W S : Type) : Type := mkState {
  world : W;
  sink : S;
  trace : list Event
}.
Arguments mkState {W S} world sink trace.

Definition M (W S A : Type) : Type := State W S -> A * State W S.

Definition ret {W S A : Type} (a : A) : M W S A := fun st => (a, st).

Definition bind {W S A B : Type} (m : M W S A) (k : A -> M W S B) : M W S B :=
  fun st => let (a, st') := m st in k a st'.

Notation "x <- m ;; k" := (bind m (fun x => k))
  (at level 61, m at next level, right associativity).
Notation "m ;;; k" := (bind m (fun _ => k))
  (at level 61, right associativity).

Definition emit {W S : Type} (ev : Event) : M W S unit :=
  fun st => (tt, mkState (world st) (sink st) (trace st ++ [ev])).

(** [StreamCallback]: it receives the series by value and is modelled as a
    reader of it, acting on its own state only. *)
Definition StreamCallback (S : Type) : Type :=
  prompb.TimeSeries -> S -> option error * S.

Definition call {W S : Type} (streamCb : StreamCallback S) (ts : prompb.TimeSeries)
  : M W S (option error) :=
  fun st =>
    let (err, s') := streamCb ts (sink st) in
    (err, mkState (world st) s' (trace st ++ [EvCallback ts])).

(** The callback invocations recorded in a trace, in order. *)
Fixpoint callback_calls (tr : list Event) : list prompb.TimeSeries :=
  match tr with
  | [] => []
  | EvCallback ts :: tr' => ts :: callback_calls tr'
  | _ :: tr' => callback_calls tr'
  end.

(** ** Query builder *)

Section Client.

Context {W : Type} {collab : Collaborators W}.

(** [labels.NewMatcher]: a regexp matcher compiles its value. *)
Definition labels_NewMatcher (t : labels.MatchType) (n v : string)
  : result labels.Matcher :=
  let m := labels.mkMatcher t n v in
  if Z.eqb t labels.MatchRegexp || Z.eqb t labels.MatchNotRegexp then
    match NewFastRegexMatcher v with
    | Some err => Err err
    | None => Ok m
    end
  else Ok m.

(** [labels.MustNewMatcher] panics with the error of [labels.NewMatcher]. *)
Definition labels_MustNewMatcher (t : labels.MatchType) (n v : string)
  : outcome labels.Matcher :=
  match labels_NewMatcher t n v with
  | Err err => Panics err
  | Ok m => Returns m
  end.

Definition toLabelMatchers (matcher : labels.Matcher)
  : result prompb.LabelMatcher :=
  let mk mType :=
    Ok (prompb.mkLabelMatcher mType (labels.Name matcher) (labels.Value matcher)) in
  if Z.eqb (labels.Type_ matcher) labels.MatchEqual then mk prompb.LabelMatcher_EQ
  else if Z.eqb (labels.Type_ matcher) labels.MatchNotEqual then mk prompb.LabelMatcher_NEQ
  else if Z.eqb (labels.Type_ matcher) labels.MatchRegexp then mk prompb.LabelMatcher_RE
  else if Z.eqb (labels.Type_ matcher) labels.MatchNotRegexp then mk prompb.LabelMatcher_NRE
  else Err (fmt_Errorf "invalid matcher type" []).

Definition query (c : Client) (filter : Filter)
  : outcome (result prompb.Query) :=
  match
    (if String.eqb (Label filter) "" && String.eqb (LabelValue filter) ""
     then labels_MustNewMatcher labels.MatchRegexp labels.MetricName ".+"
     else labels_MustNewMatcher labels.MatchRegexp
            (Label filter) (LabelValue filter))
  with
  | Panics v => Panics v
  | Returns ms =>
      match toLabelMatchers ms with
      | Err err => Returns (Err err)
      | Ok m =>
          Returns (Ok (prompb.mkQuery (Min filter)
                                      (Int64.sub (Max filter) 1)
                                      [m]))
      end
  end.

(** ** Sample decoder *)

(** The loop [for it.Next() { ... }] of [parseSamples] and its final
    [return samples, it.Err()]. *)
Fixpoint parseSamples_loop (steps : list (Z * float64 * option error))
    (final : option error) (samples : list prompb.Sample)
  : list prompb.Sample * option error :=
  match steps with
  | [] => (samples, final)
  | (ts, v, Some err) :: _ =>
      ([], Some (fmt_ErrorfW "error iterate over chunks: %w" [] err))
  | (ts, v, None) :: steps' =>
      parseSamples_loop steps' final (samples ++ [prompb.mkSample ts v])
  end.

Definition parseSamples (chunk : list byte)
  : list prompb.Sample * option error :=
  match chunkenc_FromData chunkenc.EncXOR chunk with
  | Err err => ([], Some (fmt_ErrorfW "error read chunk: %w" [] err))
  | Ok it => parseSamples_loop (chunkenc.steps it) (chunkenc.final it) []
  end.

(** ** Streaming fetch client *)

Context {S : Type}.

Definition Do (req : Request) : M W S (result Response) :=
  fun st =>
    let (r, w') := http_Do req (world st) in
    (r, mkState w' (sink st) (trace st ++ [EvRequest req])).

(** [stream.NextProto]: the next answer of the reader, [io.EOF] at the end
    of the stream. *)
Definition NextProto (stream : list (result prompb.ChunkedReadResponse))
  : result prompb.ChunkedReadResponse
    * list (result prompb.ChunkedReadResponse) :=
  match stream with
  | [] => (Err io_EOF, [])
  | r :: stream' => (r, stream')
  end.

(** [for _, chunk := range series.Chunks]: the series value after the
    samples of the chunks are appended, or the first decoding error. *)
Fixpoint fetch_chunks (ts : prompb.TimeSeries) (chunks : list prompb.Chunk)
  : result prompb.TimeSeries :=
  match chunks with
  | [] => Ok ts
  | chunk :: chunks' =>
      match parseSamples (prompb.Data chunk) with
      | (_, Some err) => Err err
      | (samples, None) =>
          fetch_chunks
            (prompb.mkTimeSeries (prompb.Labels ts)
                                 (prompb.Samples ts ++ samples))
            chunks'
      end
  end.

(** [for _, series := range res.ChunkedSeries], on the series value [ts]
    of the enclosing iteration. *)
Fixpoint fetch_series (streamCb : StreamCallback S) (ts : prompb.TimeSeries)
    (series : list prompb.ChunkedSeries) : M W S (option error) :=
  match series with
  | [] => ret None
  | s :: series' =>
      let ts1 :=
        prompb.mkTimeSeries (prompb.Labels ts ++ prompb.Series_Labels s)
                            (prompb.Samples ts) in
      match fetch_chunks ts1 (prompb.Chunks s) with
      | Err err => ret (Some err)
      | Ok ts2 =>
          r <- call streamCb ts2 ;;
          match r with
          | Some err => ret (Some err)
          | None => fetch_series streamCb ts2 series'
          end
      end
  end.

(** The [for { ... }] loop of [fetch] over the reader; each iteration
    declares a new [ts] and calls [NextProto]. *)
Fixpoint fetch_stream (streamCb : StreamCallback S)
    (stream : list (result prompb.ChunkedReadResponse))
  : M W S (option error) :=
  match stream with
  | [] => ret None
  | Err err :: _ =>
      if error_eqb err io_EOF then ret None else ret (Some err)
  | Ok res :: stream' =>
      r <- fetch_series streamCb (prompb.mkTimeSeries [] [])
                        (prompb.ChunkedSeries_ res) ;;
      match r with
      | Some err => ret (Some err)
      | None => fetch_stream streamCb stream'
      end
  end.

(** The request [fetch] sends. *)
Definition fetch_request (c : Client) (data : list byte) : Request :=
  let header :=
    Header_Set
      (Header_Set
         (Header_Add (Header_Add [] "Content-Encoding" "snappy")
                     "Accept-Encoding" "snappy")
         "Content-Type" "application/x-protobuf")
      "X-Prometheus-Remote-Read-Version" "0.1.0" in
  mkRequest "POST" (addr c ++ remoteReadPath)%string header
            (if String.eqb (user c) "" then None
             else Some (user c, password c))
            data.

(** The deferred calls run when [fetch] returns, last registered first. *)
Definition fetch (c : Client) (data : list byte) (streamCb : StreamCallback S)
  : M W S (option error) :=
  let url := (addr c ++ remoteReadPath)%string in
  match url_Parse url with
  | Some err =>
      ret (Some (fmt_ErrorfW "failed to create new HTTP request: %w" [] err))
  | None =>
      r <- Do (fetch_request c data) ;;
      match r with
      | Err err =>
          ret (Some (fmt_ErrorfW
                       "error while sending request to %s: %w; Data len %d(%d)"
                       [ArgStr (url_Redacted url);
                        ArgInt (Z.of_nat (List.length data));
                        ArgInt (Z.of_nat (List.length data))]
                       err))
      | Ok resp =>
          if negb (Z.eqb (StatusCode resp) http_StatusNoContent)
             && negb (Z.eqb (StatusCode resp) http_StatusOK)
          then
            emit (EvReadAll (Body resp)) ;;;
            emit EvBodyClose ;;;
            ret (Some (fmt_Errorf
                         "unexpected response code %d for %s. Response body %q"
                         [ArgInt (StatusCode resp);
                          ArgStr (url_Redacted url);
                          ArgBytes (Body resp)]))
          else
            emit EvPoolGet ;;;
            r <- fetch_stream streamCb (remote_NewChunkedReader (Body resp)) ;;
            emit EvPoolPut ;;;
            emit EvBodyClose ;;;
            emit EvBodyClose ;;;
            ret r
      end
  end.

Definition attempts : nat := 5.

(** [for i := 0; i < attempts; i++ { ... }; return nil] with [n]
    iterations left. *)
Fixpoint Read_loop (c : Client) (b : list byte) (streamCb : StreamCallback S)
    (n : nat) (i : Z) : M W S (option error) :=
  match n with
  | O => ret None
  | Datatypes.S n' =>
      err <- fetch c b streamCb ;;
      match err with
      | Some err =>
          if errors_Is err context_Canceled
          then ret (Some (fmt_Errorf "process stoped" []))
          else
            emit (EvLogErrorf
                    "attempt %d to fetch data from remote storage: %s"
                    (i + 1) err) ;;;
            emit (EvSleep time_Second) ;;;
            Read_loop c b streamCb n' (i + 1)
      | None => ret None
      end
  end.

Definition Read (c : Client) (filter : Filter) (streamCb : StreamCallback S)
  : M W S (outcome (option error)) :=
  match query c filter with
  | Panics v => ret (Panics v)
  | Returns (Err err) =>
      ret (Returns (Some (fmt_ErrorfW "error prepare stream query: %w" [] err)))
  | Returns (Ok query) =>
      let req :=
        prompb.mkReadRequest [query]
                             [prompb.ReadRequest_STREAMED_XOR_CHUNKS] in
      match proto_Marshal req with
      | Err err =>
          ret (Returns
                 (Some (fmt_ErrorfW "unable to marshal read request: %w" [] err)))
      | Ok data =>
          let b := snappy_Encode data in
          r <- Read_loop c b streamCb attempts 0 ;;
          ret (Returns r)
      end
  end.

End Client.

(** ** Vocabulary of the statements *)

Section Statements.

Context {W : Type} {collab : Collaborators W}.

(** The pattern [query] hands to the regexp compiler. *)
Definition query_pattern (filter : Filter) : string :=
  if String.eqb (Label filter) "" && String.eqb (LabelValue filter) ""
  then ".+" else LabelValue filter.

Definition query_label (filter : Filter) : string :=
  if String.eqb (Label filter) "" && String.eqb (LabelValue filter) ""
  then labels.MetricName else Label filter.

(** The samples a chunk decodes to (none when decoding fails). *)
Definition decoded_samples (chunk : prompb.Chunk) : list prompb.Sample :=
  match parseSamples (prompb.Data chunk) with
  | (samples, None) => samples
  | (_, Some _) => []
  end.

(** The decoded samples of all chunks of a series entry. *)
Definition series_samples (s : prompb.ChunkedSeries) : list prompb.Sample :=
  flat_map decoded_samples (prompb.Chunks s).

(** Labels and samples of the series entries [series], concatenated. *)
Definition accumulated (series : list prompb.ChunkedSeries)
  : prompb.TimeSeries :=
  prompb.mkTimeSeries (flat_map prompb.Series_Labels series)
                      (flat_map series_samples series).

(** What the callback is handed for the entries s1..sn of one message:
    for i = 1..n, the accumulation of s1..si. *)
Definition message_deliveries (res : prompb.ChunkedReadResponse)
  : list prompb.TimeSeries :=
  map (fun i => accumulated (firstn i (prompb.ChunkedSeries_ res)))
      (seq 1 (List.length (prompb.ChunkedSeries_ res))).

(** The series value [ts] once the entries [series] are accumulated onto
    it. *)
Definition accumulate_onto (ts : prompb.TimeSeries)
    (series : list prompb.ChunkedSeries) : prompb.TimeSeries :=
  prompb.mkTimeSeries
    (prompb.Labels ts ++ flat_map prompb.Series_Labels series)
    (prompb.Samples ts ++ flat_map series_samples series).

(** [corrupt data err]: decoding the payload [data] fails with [err],
    because the payload is malformed, because the iterator reports an error
    on a step, or because it stops on one. *)
Inductive corrupt (data : list byte) : error -> Prop :=
| corrupt_payload err :
    chunkenc_FromData chunkenc.EncXOR data = Err err ->
    corrupt data (fmt_ErrorfW "error read chunk: %w" [] err)
| corrupt_step it before ts v err after :
    chunkenc_FromData chunkenc.EncXOR data = Ok it ->
    chunkenc.steps it = before ++ (ts, v, Some err) :: after ->
    Forall (fun step => snd step = None) before ->
    corrupt data (fmt_ErrorfW "error iterate over chunks: %w" [] err)
| corrupt_final it err :
    chunkenc_FromData chunkenc.EncXOR data = Ok it ->
    Forall (fun step => snd step = None) (chunkenc.steps it) ->
    chunkenc.final it = Some err ->
    corrupt data err.

(** The messages the reader yields before its first error or end. *)
Fixpoint leading_messages (stream : list (result prompb.ChunkedReadResponse))
  : list prompb.ChunkedReadResponse :=
  match stream with
  | Ok res :: stream' => res :: leading_messages stream'
  | _ => []
  end.

Context {S : Type}.

(** The state in which [fetch] enters its loop over the reader, once the
    request sent from [st] has been answered and left the world [w']. *)
Definition fetch_entered (c : Client) (data : list byte) (st : State W S)
    (w' : W) : State W S :=
  mkState w' (sink st)
          (trace st ++ [EvRequest (fetch_request c data); EvPoolGet]).

(** The state [fetch] leaves once the loop over the reader has ended in
    [st]: the deferred calls have run. *)
Definition fetch_deferred (st : State W S) : State W S :=
  mkState (world st) (sink st)
          (trace st ++ [EvPoolPut; EvBodyClose; EvBodyClose]).

(** [retries c b cb n i st n' i' st']: the retry loop of [Read], entered
    with [n] iterations left, counter [i] and state [st], gets to the
    iteration with [n'] left, counter [i'] and state [st'] through fetch
    attempts that all fail with an error other than cancellation. *)
Inductive retries (c : Client) (b : list byte) (streamCb : StreamCallback S)
  : nat -> Z -> State W S -> nat -> Z -> State W S -> Prop :=
| retries_refl n i st : retries c b streamCb n i st n i st
| retries_step n i st err st1 n' i' st' :
    fetch c b streamCb st = (Some err, st1) ->
    errors_Is err context_Canceled = false ->
    retries c b streamCb n (i + 1)
      (mkState (world st1) (sink st1)
         (trace st1
          ++ [EvLogErrorf "attempt %d to fetch data from remote storage: %s"
                          (i + 1) err;
              EvSleep time_Second]))
      n' i' st' ->
    retries c b streamCb (Datatypes.S n) i st n' i' st'.

(** The counter and state after [k] attempts in a row that fail with an
    error other than cancellation, when they do. *)
Fixpoint failed_attempts (c : Client) (b : list byte)
    (streamCb : StreamCallback S) (k : nat) (i : Z) (st : State W S)
  : option (Z * State W S) :=
  match k with
  | O => Some (i, st)
  | Datatypes.S k' =>
      match fetch c b streamCb st with
      | (Some err, st1) =>
          if errors_Is err context_Canceled then None
          else
            failed_attempts c b streamCb k' (i + 1)
              (mkState (world st1) (sink st1)
                 (trace st1
                  ++ [EvLogErrorf
                        "attempt %d to fetch data from remote storage: %s"
                        (i + 1) err;
                      EvSleep time_Second]))
      | (None, _) => None
      end
  end.

End Statements.

(** ** A scripted endpoint

    An instance of the collaborators over a world that is the list of the
    answers the endpoint will give, one per request. *)

Module Mock.

(** A pattern is refused when a character class is left open, as by
    [regexp/syntax] ("missing closing ]"). *)
Fixpoint open_class (inside : bool) (s : string) : bool :=
  match s with
  | EmptyString => inside
  | String a s' =>
      if inside
      then open_class (negb (Ascii.eqb a "]")) s'
      else open_class (Ascii.eqb a "[") s'
  end.

Definition compile (v : string) : option error :=
  if open_class false v
  then Some (errors_New "error parsing regexp: missing closing ]")
  else None.

(** A toy chunk format: one sample per byte, [xff] is a corrupt byte. *)
Fixpoint chunk_steps (data : list byte) : list (Z * float64 * option error) :=
  match data with
  | [] => []
  | b :: data' =>
      if Byte.eqb b xff then []
      else (Z.of_N (Byte.to_N b), Z.of_N (Byte.to_N b), None)
             :: chunk_steps data'
  end.

Definition FromData (enc : Z) (data : list byte) : result chunkenc.Iterator :=
  if Z.eqb enc chunkenc.EncXOR then
    Ok (chunkenc.mkIterator
          (chunk_steps data)
          (if existsb (Byte.eqb xff) data
           then Some (errors_New "unexpected EOF") else None))
  else Err (errors_New "invalid chunk encoding").

(** The reader yields the scripted frames on a body that is not empty. *)
Definition reader (frames : list (result prompb.ChunkedReadResponse))
    (body : list byte) : list (result prompb.ChunkedReadResponse) :=
  match body with
  | [] => []
  | _ => frames
  end.

Definition Do (req : Request) (w : list (result Response))
  : result Response * list (result Response) :=
  match w with
  | [] => (Err (errors_New "connection refused"), [])
  | r :: w' => (r, w')
  end.

Definition collaborators (frames : list (result prompb.ChunkedReadResponse))
  : Collaborators (list (result Response)) :=
  {| NewFastRegexMatcher := compile;
     proto_Marshal := fun _ => Ok [x0a];
     snappy_Encode := fun data => data;
     url_Parse := fun _ => None;
     url_Redacted := fun u => u;
     http_Do := Do;
     remote_NewChunkedReader := reader frames;
     chunkenc_FromData := FromData |}.

Definition client : Client := mkClient "http://localhost:9090" "" "".

Definition any_filter : Filter := mkFilter 0 10 "" "".
Definition job_filter : Filter := mkFilter 1000 2000 "job" "node.*".

(** The query of [any_filter]. *)
Definition any_query : prompb.Query :=
  prompb.mkQuery 0 9
    [prompb.mkLabelMatcher prompb.LabelMatcher_RE "__name__" ".+"].

(** A callback that collects the series it is handed. *)
Definition collect : StreamCallback (list prompb.TimeSeries) :=
  fun ts seen => (None, seen ++ [ts]).

Definition series1 : prompb.ChunkedSeries :=
  prompb.mkChunkedSeries
    [prompb.mkLabel "__name__" "up"; prompb.mkLabel "job" "a"]
    [prompb.mkChunk 1 2 1 [x01; x02]; prompb.mkChunk 3 3 1 [x03]].

Definition series2 : prompb.ChunkedSeries :=
  prompb.mkChunkedSeries
    [prompb.mkLabel "__name__" "up"; prompb.mkLabel "job" "b"]
    [prompb.mkChunk 4 4 1 [x04]].

(** A series entry whose second chunk is corrupt. *)
Definition series_bad : prompb.ChunkedSeries :=
  prompb.mkChunkedSeries
    [prompb.mkLabel "__name__" "up"; prompb.mkLabel "job" "c"]
    [prompb.mkChunk 5 5 1 [x05]; prompb.mkChunk 6 7 1 [x06; xff; x07]].

Definition start (w : list (result Response))
  : State (list (result Response)) (list prompb.TimeSeries) :=
  mkState w [] [].

(** An endpoint with no frame to stream. *)
Definition idle : Collaborators (list (result Response)) :=
  collaborators [].

(** An endpoint streaming two messages, of two and one series entries. *)
Definition two_messages : Collaborators (list (result Response)) :=
  collaborators
    [Ok (prompb.mkChunkedReadResponse [series1; series2] 0);
     Ok (prompb.mkChunkedReadResponse [series2] 0)].

(** An endpoint streaming a message whose second entry is corrupt. *)
Definition corrupted : Collaborators (list (result Response)) :=
  collaborators
    [Ok (prompb.mkChunkedReadResponse [series1; series_bad; series2] 0)].

Definition unavailable : result Response :=
  Ok (mkResponse 503 [x62; x75; x73; x79]).

(** What the transport returns once the request context is cancelled. *)
Definition cancelled : result Response :=
  Err (fmt_ErrorfW "Post %q: %w"
         [ArgStr "http://localhost:9090/api/v1/read"] context_Canceled).

(** The state in which the loop of [fetch], on the endpoint [corrupted]
    answering 200, has got through the first entry of the message. *)
Definition before_corrupt
  : State (list (result Response)) (list prompb.TimeSeries) :=
  snd (fetch_stream (collab := corrupted) collect
         [Ok (prompb.mkChunkedReadResponse [series1] 0)]
         (fetch_entered client [x0a]
            (start [Ok (mkResponse 200 [x01])]) [])).

(** The state of the retry loop of [Read] after one attempt answered 503,
    with two answers left in the script. *)
Definition after_one_failure
  : State (list (result Response)) (list prompb.TimeSeries) :=
  let st1 :=
    snd (fetch (collab := idle) client [x0a] collect
           (start [unavailable; cancelled; unavailable])) in
  mkState (world st1) (sink st1)
    (trace st1
     ++ [EvLogErrorf "attempt %d to fetch data from remote storage: %s" 1
           (fmt_Errorf "unexpected response code %d for %s. Response body %q"
              [ArgInt 503; ArgStr "http://localhost:9090/api/v1/read";
               ArgBytes [x62; x75; x73; x79]]);
         EvSleep time_Second]).

(** The state [Read] ends in on an endpoint that answers 503 five times. *)
Definition exhausted
  : State (list (result Response)) (list prompb.TimeSeries) :=
  Eval vm_compute in
    snd (Read (collab := idle) client any_filter collect
           (start (repeat unavailable 5))).

End Mock.

(** ** Client construction and liveness probe *)

Record Config : Type := mkConfig {
  Addr : string;
  ReadTimeout : Z;
  Username : string;
  Password : string
}.

(** The [*http.Client] a client holds, as far as [NewClient] sets it. *)
Record http_Client : Type := mkhttp_Client {
  Timeout : Z
}.

(** [strings.HasSuffix] *)
Definition strings_HasSuffix (s suffix : string) : bool :=
  (String.length suffix <=? String.length s)%nat
  && String.eqb
       (substring (String.length s - String.length suffix)
                  (String.length suffix) s)
       suffix.

(** [strings.TrimSuffix] *)
Definition strings_TrimSuffix (s suffix : string) : string :=
  if strings_HasSuffix s suffix
  then substring 0 (String.length s - String.length suffix) s
  else s.

(** [NewClient]: the client, with the HTTP client stored in its field [c]
    (its transport, a clone of the default one, is not modelled). *)
Definition NewClient (cfg : Config) : result (Client * http_Client) :=
  if String.eqb (Addr cfg) "" then
    Err (fmt_Errorf "config.Addr can't be empty" [])
  else
    let ReadTimeout' :=
      if Z.eqb (ReadTimeout cfg) 0 then defaultReadTimeout
      else ReadTimeout cfg in
    Ok (mkClient (strings_TrimSuffix (Addr cfg) "/")
                 (Username cfg) (Password cfg),
        mkhttp_Client ReadTimeout').

(** What [Ping] uses besides the collaborators of the read path: the
    process-wide [http.DefaultClient], and the text of an error as the
    verb [%s] prints it. *)
Class DefaultClient (W : Type) : Type := {
  DefaultClient_Do : Request -> W -> result Response * W;
  error_Error : error -> string
}.

Section Probe.

Context {W : Type} {collab : Collaborators W} {probe : DefaultClient W}
        {S : Type}.

(** The request [Ping] sends. *)
Definition Ping_request (c : Client) : Request :=
  mkRequest "GET" (addr c ++ healthPath)%string []
            (if String.eqb (user c) "" then None
             else Some (user c, password c))
            [].

Definition Ping (c : Client) : M W S (option error) :=
  let url := (addr c ++ healthPath)%string in
  match url_Parse url with
  | Some err =>
      ret (Some (fmt_Errorf "cannot create request to %q: %s"
                   [ArgStr url; ArgStr (error_Error err)]))
  | None =>
      r <- (fun st =>
              let (r, w') := DefaultClient_Do (Ping_request c) (world st) in
              (r, mkState w' (sink st)
                    (trace st ++ [EvRequest (Ping_request c)]))) ;;
      match r with
      | Err err => ret (Some err)
      | Ok resp =>
          if negb (Z.eqb (StatusCode resp) http_StatusOK)
          then ret (Some (fmt_Errorf "bad status code: %d"
                            [ArgInt (StatusCode resp)]))
          else ret None
      end
  end.

End Probe.

(** ** More vocabulary *)

(** The numbers of the wire matcher types in the protocol. *)
Definition LabelMatcher_Type_value (t : prompb.LabelMatcher_Type) : Z :=
  match t with
  | prompb.LabelMatcher_EQ => 0
  | prompb.LabelMatcher_NEQ => 1
  | prompb.LabelMatcher_RE => 2
  | prompb.LabelMatcher_NRE => 3
  end.

Definition is_request (ev : Event) : bool :=
  match ev with EvRequest _ => true | _ => false end.

Definition is_sleep (ev : Event) : bool :=
  match ev with EvSleep _ => true | _ => false end.

Definition is_log (ev : Event) : bool :=
  match ev with EvLogErrorf _ _ _ => true | _ => false end.

(** How many events of a trace satisfy [p]. *)
Definition count (p : Event -> bool) (tr : list Event) : nat :=
  List.length (filter p tr).

Section MoreStatements.

Context {W : Type} {collab : Collaborators W}.

(** Every chunk of the series entry decodes. *)
Definition decodable (s : prompb.ChunkedSeries) : Prop :=
  Forall (fun chunk => snd (parseSamples (prompb.Data chunk)) = None)
         (prompb.Chunks s).

(** Every chunk of every entry of the message decodes. *)
Definition clean (res : prompb.ChunkedReadResponse) : Prop :=
  Forall decodable (prompb.ChunkedSeries_ res).

End MoreStatements.

(** A scripted default client for the probe. *)
Module MockProbe.

Definition health : DefaultClient (list (result Response)) :=
  {| DefaultClient_Do := Mock.Do;
     error_Error := fun _ => "parse error" |}.

Definition secured : Client := mkClient "http://localhost:9090" "admin" "s3".

Definition config : Config :=
  mkConfig "http://localhost:9090/" 0 "admin" "s3".

(** A filter whose upper bound is the smallest [int64]. *)
Definition lowest_filter : Filter := mkFilter 5 Int64.min_int "" "".

Definition lowest_query : prompb.Query :=
  prompb.mkQuery 5 Int64.max_int
    [prompb.mkLabelMatcher prompb.LabelMatcher_RE "__name__" ".+"].

(** The query of [Mock.job_filter]. *)
Definition job_query : prompb.Query :=
  prompb.mkQuery 1000 1999
    [prompb.mkLabelMatcher prompb.LabelMatcher_RE "job" "node.*"].

(** A callback that refuses every series. *)
Definition refuse : StreamCallback (list prompb.TimeSeries) :=
  fun ts seen => (Some (errors_New "sink is full"), seen ++ [ts]).

(** An endpoint whose stream breaks after its first message. *)
Definition broken : Collaborators (list (result Response)) :=
  Mock.collaborators
    [Ok (prompb.mkChunkedReadResponse [Mock.series1] 0);
     Err (errors_New "unexpected EOF");
     Ok (prompb.mkChunkedReadResponse [Mock.series2] 0)].

(** What the toy decoder makes of the payloads [x01 x02] and
    [x06 xff x07]. *)
Definition two_steps : chunkenc.Iterator :=
  chunkenc.mkIterator [(1, 1, None); (2, 2, None)] None.

Definition truncated : chunkenc.Iterator :=
  chunkenc.mkIterator [(6, 6, None)] (Some (errors_New "unexpected EOF")).

(** Collaborators whose URL parser insists on a scheme. *)
Definition strict : Collaborators (list (result Response)) :=
  {| NewFastRegexMatcher := Mock.compile;
     proto_Marshal := fun _ => Ok [x0a];
     snappy_Encode := fun data => data;
     url_Parse := fun u =>
       if prefix "http" u then None
       else Some (errors_New "missing protocol scheme");
     url_Redacted := fun u => u;
     http_Do := Mock.Do;
     remote_NewChunkedReader := Mock.reader [];
     chunkenc_FromData := Mock.FromData |}.

Definition schemeless : Client := mkClient "localhost:9090" "" "".

(** An endpoint that answers every request with the same stream of one
    message; its world counts the requests. *)
Definition steady : Collaborators nat :=
  {| NewFastRegexMatcher := Mock.compile;
     proto_Marshal := fun _ => Ok [x0a];
     snappy_Encode := fun data => data;
     url_Parse := fun _ => None;
     url_Redacted := fun u => u;
     http_Do := fun _ n => (Ok (mkResponse 200 [x01]), Datatypes.S n);
     remote_NewChunkedReader :=
       Mock.reader
         [Ok (prompb.mkChunkedReadResponse [Mock.series1; Mock.series2] 0)];
     chunkenc_FromData := Mock.FromData |}.

(** An endpoint that is unavailable once and then streams. *)
Definition recovering
  : State (list (result Response)) (list prompb.TimeSeries) :=
  Mock.start [Mock.unavailable; Ok (mkResponse 200 [x01])].

(** The state of the retry loop after the failed first attempt on
    [recovering]. *)
Definition after_failure
  : State (list (result Response)) (list prompb.TimeSeries) :=
  Eval vm_compute in
    match
      failed_attempts (collab := Mock.two_messages) Mock.client [x0a]
        Mock.collect 1 0 recovering
    with
    | Some (_, st) => st
    | None => recovering
    end.

End MockProbe.

(** * Properties *)

(** ** 64-bit arithmetic *)

Lemma Int64_wrap_in_range (z : Z) :
  Int64.in_range z -> Int64.wrap z = z.
Proof.
  unfold Int64.in_range, Int64.wrap, Int64.min_int, Int64.max_int,
    Int64.modulus.
  intros Hz. rewrite Z.mod_small; lia.
Qed.

Lemma Int64_sub_one (z : Z) :
  Int64.min_int < z <= Int64.max_int -> Int64.sub z 1 = z - 1.
Proof.
  intros Hz. unfold Int64.sub. apply Int64_wrap_in_range.
  unfold Int64.in_range, Int64.min_int, Int64.max_int in *. lia.
Qed.

(** At the smallest [int64] the subtraction wraps to the largest. *)
Lemma Int64_sub_one_wraps : Int64.sub Int64.min_int 1 = Int64.max_int.
Proof. reflexivity. Qed.

(** ** Errors *)

Lemma error_eqb_EOF (err : error) : error_eqb err io_EOF = true <-> err = io_EOF.
Proof. destruct err; simpl; split; congruence. Qed.

Lemma errors_Is_wrapped (f : string) (args : list fmt_arg) (err target : error) :
  errors_Is err target = true ->
  errors_Is (fmt_ErrorfW f args err) target = true.
Proof. intros H. simpl. rewrite H. apply orb_true_r. Qed.

(** ** Query builder *)

Section QueryBuilder.

Context {W : Type} {collab : Collaborators W}.

Lemma labels_MustNewMatcher_Returns (t : labels.MatchType) (n v : string)
    (ms : labels.Matcher) :
  labels_MustNewMatcher t n v = Returns ms -> ms = labels.mkMatcher t n v.
Proof.
  unfold labels_MustNewMatcher, labels_NewMatcher.
  destruct (Z.eqb t labels.MatchRegexp || Z.eqb t labels.MatchNotRegexp);
    [destruct (NewFastRegexMatcher v) |]; congruence.
Qed.

Lemma labels_MustNewMatcher_regexp (n v : string) :
  labels_MustNewMatcher labels.MatchRegexp n v =
  match NewFastRegexMatcher v with
  | Some err => Panics err
  | None => Returns (labels.mkMatcher labels.MatchRegexp n v)
  end.
Proof.
  unfold labels_MustNewMatcher, labels_NewMatcher. simpl.
  destruct (NewFastRegexMatcher v); reflexivity.
Qed.

(** The conversion fails exactly on a kind outside the four named ones. *)
Lemma toLabelMatchers_Err (matcher : labels.Matcher) (err : error) :
  toLabelMatchers matcher = Err err ->
  labels.Type_ matcher <> labels.MatchEqual
  /\ labels.Type_ matcher <> labels.MatchNotEqual
  /\ labels.Type_ matcher <> labels.MatchRegexp
  /\ labels.Type_ matcher <> labels.MatchNotRegexp.
Proof.
  unfold toLabelMatchers.
  destruct (Z.eqb_spec (labels.Type_ matcher) labels.MatchEqual); [discriminate|].
  destruct (Z.eqb_spec (labels.Type_ matcher) labels.MatchNotEqual); [discriminate|].
  destruct (Z.eqb_spec (labels.Type_ matcher) labels.MatchRegexp); [discriminate|].
  destruct (Z.eqb_spec (labels.Type_ matcher) labels.MatchNotRegexp); [discriminate|].
  auto.
Qed.

Lemma toLabelMatchers_regexp (n v : string) :
  toLabelMatchers (labels.mkMatcher labels.MatchRegexp n v) =
  Ok (prompb.mkLabelMatcher prompb.LabelMatcher_RE n v).
Proof. reflexivity. Qed.

(** [query] in closed form: it panics when the pattern does not compile and
    returns the query otherwise. *)
Lemma query_eq (c : Client) (filter : Filter) :
  query c filter =
  match NewFastRegexMatcher (query_pattern filter) with
  | Some err => Panics err
  | None =>
      Returns (Ok (prompb.mkQuery
                     (Min filter) (Int64.sub (Max filter) 1)
                     [prompb.mkLabelMatcher prompb.LabelMatcher_RE
                        (query_label filter) (query_pattern filter)]))
  end.
Proof.
  unfold query, query_pattern, query_label.
  destruct (String.eqb (Label filter) "" && String.eqb (LabelValue filter) "");
    rewrite labels_MustNewMatcher_regexp;
    destruct (NewFastRegexMatcher _); reflexivity.
Qed.

Lemma both_empty_iff (filter : Filter) :
  String.eqb (Label filter) "" && String.eqb (LabelValue filter) "" = true
  <-> Label filter = "" /\ LabelValue filter = "".
Proof.
  rewrite andb_true_iff, !String.eqb_eq. tauto.
Qed.

(** C3: whenever [query] builds a query, it holds exactly one matcher: the
    regexp matcher [.+] on the metric-name label when [Label] and
    [LabelValue] are both empty, and otherwise the regexp matcher named
    [Label] with pattern [LabelValue]. *)
Theorem query_single_regexp_matcher (c : Client) (filter : Filter)
    (q : prompb.Query) :
  query c filter = Returns (Ok q) ->
  (Label filter = "" /\ LabelValue filter = "" ->
   prompb.Matchers q =
   [prompb.mkLabelMatcher prompb.LabelMatcher_RE labels.MetricName ".+"])
  /\ (~ (Label filter = "" /\ LabelValue filter = "") ->
      prompb.Matchers q =
      [prompb.mkLabelMatcher prompb.LabelMatcher_RE
         (Label filter) (LabelValue filter)]).
Proof.
  rewrite query_eq. unfold query_pattern, query_label.
  destruct (String.eqb (Label filter) "" && String.eqb (LabelValue filter) "")
    eqn:Hempty.
  - destruct (NewFastRegexMatcher ".+"); [discriminate|].
    intros Hq. injection Hq as <-. split; [reflexivity|].
    intros Hne. apply both_empty_iff in Hempty. contradiction.
  - destruct (NewFastRegexMatcher (LabelValue filter)); [discriminate|].
    intros Hq. injection Hq as <-. split; [|reflexivity].
    intros He. apply both_empty_iff in He. congruence.
Qed.

(** C4: whenever [query] builds a query, its start is [filter.Min], its end
    is the [int64] difference [filter.Max - 1] (the integer [Max - 1] unless
    [Max] is the smallest [int64]) and it has exactly one matcher. *)
Theorem query_time_range (c : Client) (filter : Filter) (q : prompb.Query) :
  query c filter = Returns (Ok q) ->
  prompb.StartTimestampMs q = Min filter
  /\ prompb.EndTimestampMs q = Int64.sub (Max filter) 1
  /\ (Int64.min_int < Max filter <= Int64.max_int ->
      prompb.EndTimestampMs q = Max filter - 1)
  /\ List.length (prompb.Matchers q) = 1%nat.
Proof.
  rewrite query_eq.
  destruct (NewFastRegexMatcher (query_pattern filter)); [discriminate|].
  intros Hq. injection Hq as <-. simpl.
  repeat split. apply Int64_sub_one.
Qed.

(** A filter whose pattern does not compile makes [query], and [Read] with
    it, panic before anything is sent. *)
Lemma query_panics (c : Client) (filter : Filter) (err : error) :
  NewFastRegexMatcher (query_pattern filter) = Some err ->
  query c filter = Panics err
  /\ forall (S : Type) (streamCb : StreamCallback S) (st : State W S),
       Read c filter streamCb st = (Panics err, st).
Proof.
  intros Hre.
  assert (Hq : query c filter = Panics err) by (rewrite query_eq, Hre; reflexivity).
  split; [exact Hq|].
  intros S streamCb st. unfold Read. rewrite Hq. reflexivity.
Qed.

(** C7: when the regexp compiler refuses the pattern "[", there is a filter
    on which [query] panics with the compiler's error instead of returning
    one, and [Read] panics with it: it returns no error at all. *)
Theorem query_panics_on_invalid_regexp (c : Client) (err : error) :
  NewFastRegexMatcher "[" = Some err ->
  exists filter : Filter,
    LabelValue filter = "["
    /\ query c filter = Panics err
    /\ forall (S : Type) (streamCb : StreamCallback S) (st : State W S),
         Read c filter streamCb st = (Panics err, st).
Proof.
  intros Hre. exists (mkFilter 0 1 "job" "[").
  split; [reflexivity|]. apply query_panics. exact Hre.
Qed.

(** C10: whenever [query] runs to completion it returns a query and no
    error: the matcher it converts is a regexp matcher, which maps to the
    wire type RE, so the invalid-matcher branch is not taken. *)
Theorem query_never_invalid_matcher (c : Client) (filter : Filter)
    (r : result prompb.Query) :
  query c filter = Returns r ->
  exists (q : prompb.Query) (m : prompb.LabelMatcher),
    r = Ok q
    /\ prompb.Matchers q = [m]
    /\ prompb.Type_ m = prompb.LabelMatcher_RE
    /\ toLabelMatchers
         (labels.mkMatcher labels.MatchRegexp (prompb.Name m) (prompb.Value m))
       = Ok m.
Proof.
  rewrite query_eq.
  destruct (NewFastRegexMatcher (query_pattern filter)); [discriminate|].
  intros Hq. injection Hq as <-.
  eexists; eexists. repeat split.
Qed.

End QueryBuilder.

(** ** Streaming fetch client *)

Section FetchClient.

Context {W : Type} {collab : Collaborators W} {S : Type}.

Implicit Types (st : State W S) (streamCb : StreamCallback S).

Lemma callback_calls_app (tr1 tr2 : list Event) :
  callback_calls (tr1 ++ tr2) = callback_calls tr1 ++ callback_calls tr2.
Proof.
  induction tr1 as [|ev tr1 IH]; simpl; [reflexivity|].
  destruct ev; simpl; rewrite IH; reflexivity.
Qed.

(** [fetch] once the request has been built and answered. *)
Lemma fetch_answered (c : Client) (data : list byte) streamCb st
    (resp : Response) (w' : W) :
  url_Parse (addr c ++ remoteReadPath)%string = None ->
  http_Do (fetch_request c data) (world st) = (Ok resp, w') ->
  fetch c data streamCb st =
  if negb (Z.eqb (StatusCode resp) http_StatusNoContent)
     && negb (Z.eqb (StatusCode resp) http_StatusOK)
  then
    (Some (fmt_Errorf "unexpected response code %d for %s. Response body %q"
             [ArgInt (StatusCode resp);
              ArgStr (url_Redacted (addr c ++ remoteReadPath)%string);
              ArgBytes (Body resp)]),
     mkState w' (sink st)
       (trace st
        ++ [EvRequest (fetch_request c data); EvReadAll (Body resp);
            EvBodyClose]))
  else
    let (r, st2) :=
      fetch_stream streamCb (remote_NewChunkedReader (Body resp))
        (fetch_entered c data st w') in
    (r, fetch_deferred st2).
Proof.
  intros Hurl Hdo. unfold fetch, fetch_deferred, fetch_entered. rewrite Hurl.
  unfold bind at 1. unfold Do. rewrite Hdo.
  destruct (negb (Z.eqb (StatusCode resp) http_StatusNoContent)
            && negb (Z.eqb (StatusCode resp) http_StatusOK)).
  - unfold bind, emit, ret. simpl. rewrite <- !app_assoc. reflexivity.
  - unfold bind, emit, ret. simpl. rewrite <- !app_assoc. simpl.
    destruct (fetch_stream _ _ _) as [r st2]. simpl.
    rewrite <- !app_assoc. reflexivity.
Qed.

(** C8: on an answer whose status is neither 200 nor 204, [fetch] reads the
    body and fails with the error formatted from the status code, the URL
    and the body; the callback is not invoked (no callback event, its state
    untouched). *)
Theorem fetch_unexpected_status (c : Client) (data : list byte) streamCb st
    (resp : Response) (w' : W) :
  url_Parse (addr c ++ remoteReadPath)%string = None ->
  http_Do (fetch_request c data) (world st) = (Ok resp, w') ->
  StatusCode resp <> 200 ->
  StatusCode resp <> 204 ->
  exists st' : State W S,
    fetch c data streamCb st =
    (Some (fmt_Errorf "unexpected response code %d for %s. Response body %q"
             [ArgInt (StatusCode resp);
              ArgStr (url_Redacted (addr c ++ remoteReadPath)%string);
              ArgBytes (Body resp)]),
     st')
    /\ trace st' =
       trace st ++ [EvRequest (fetch_request c data); EvReadAll (Body resp);
                    EvBodyClose]
    /\ callback_calls (trace st') = callback_calls (trace st)
    /\ sink st' = sink st.
Proof.
  intros Hurl Hdo H200 H204.
  rewrite (fetch_answered c data streamCb st Hurl Hdo).
  unfold http_StatusNoContent, http_StatusOK.
  destruct (Z.eqb_spec (StatusCode resp) 204); [contradiction|].
  destruct (Z.eqb_spec (StatusCode resp) 200); [contradiction|].
  simpl. eexists. split; [reflexivity|].
  simpl. repeat split.
  rewrite callback_calls_app. simpl. apply app_nil_r.
Qed.

(** C9: on status 204 with a reader whose first [NextProto] answers
    [io.EOF], [fetch] returns nil and does not invoke the callback. *)
Theorem fetch_no_content (c : Client) (data : list byte) streamCb st
    (resp : Response) (w' : W) :
  url_Parse (addr c ++ remoteReadPath)%string = None ->
  http_Do (fetch_request c data) (world st) = (Ok resp, w') ->
  StatusCode resp = 204 ->
  fst (NextProto (remote_NewChunkedReader (Body resp))) = Err io_EOF ->
  exists st' : State W S,
    fetch c data streamCb st = (None, st')
    /\ callback_calls (trace st') = callback_calls (trace st)
    /\ sink st' = sink st.
Proof.
  intros Hurl Hdo H204 Heof.
  rewrite (fetch_answered c data streamCb st Hurl Hdo), H204. simpl.
  destruct (remote_NewChunkedReader (Body resp)) as [|r stream'].
  - simpl. eexists. split; [reflexivity|]. simpl.
    rewrite !callback_calls_app. simpl. rewrite !app_nil_r. auto.
  - simpl in Heof. subst r. simpl. eexists. split; [reflexivity|]. simpl.
    rewrite !callback_calls_app. simpl. rewrite !app_nil_r. auto.
Qed.

(** *** Decoding *)

Lemma parseSamples_loop_clean (steps : list (Z * float64 * option error))
    (final : option error) (samples : list prompb.Sample) :
  Forall (fun step => snd step = None) steps ->
  parseSamples_loop steps final samples =
  (samples ++ map (fun step => prompb.mkSample (fst (fst step)) (snd (fst step)))
                  steps,
   final).
Proof.
  intros Hclean. revert samples.
  induction Hclean as [|[[ts v] e] steps He _ IH]; intros samples; simpl.
  - rewrite app_nil_r. reflexivity.
  - simpl in He. subst e. rewrite IH, <- app_assoc. reflexivity.
Qed.

Lemma parseSamples_loop_step (before after : list (Z * float64 * option error))
    (ts : Z) (v : float64) (err : error) (final : option error)
    (samples : list prompb.Sample) :
  Forall (fun step => snd step = None) before ->
  parseSamples_loop (before ++ (ts, v, Some err) :: after) final samples =
  ([], Some (fmt_ErrorfW "error iterate over chunks: %w" [] err)).
Proof.
  intros Hclean. revert samples.
  induction Hclean as [|[[ts0 v0] e] before He _ IH]; intros samples; simpl.
  - reflexivity.
  - simpl in He. subst e. apply IH.
Qed.

(** A corrupt payload makes [parseSamples] return an error, whatever
    samples it returns with it. *)
Lemma parseSamples_corrupt (data : list byte) (err : error) :
  corrupt data err -> snd (parseSamples data) = Some err.
Proof.
  unfold parseSamples.
  intros [e0 Hfrom | it before ts v e1 after Hfrom Hsteps Hclean
          | it e2 Hfrom Hclean Hfinal]; rewrite Hfrom.
  - reflexivity.
  - rewrite Hsteps, parseSamples_loop_step by assumption. reflexivity.
  - rewrite parseSamples_loop_clean by assumption. exact Hfinal.
Qed.

Lemma decoded_samples_Ok (chunk : prompb.Chunk) (samples : list prompb.Sample) :
  parseSamples (prompb.Data chunk) = (samples, None) ->
  decoded_samples chunk = samples.
Proof. unfold decoded_samples. intros ->. reflexivity. Qed.

(** *** The loop over the chunks of a series entry *)

Lemma fetch_chunks_Ok (chunks : list prompb.Chunk) (ts ts' : prompb.TimeSeries) :
  fetch_chunks ts chunks = Ok ts' ->
  ts' = prompb.mkTimeSeries
          (prompb.Labels ts)
          (prompb.Samples ts ++ flat_map decoded_samples chunks).
Proof.
  revert ts. induction chunks as [|chunk chunks IH]; intros ts; simpl.
  - intros [= <-]. rewrite app_nil_r. destruct ts; reflexivity.
  - destruct (parseSamples (prompb.Data chunk)) as [samples [err|]] eqn:Hparse;
      [discriminate|].
    intros Hrest. apply IH in Hrest. simpl in Hrest.
    rewrite (decoded_samples_Ok _ Hparse), app_assoc. exact Hrest.
Qed.

Lemma fetch_chunks_corrupt (before after : list prompb.Chunk)
    (chunk : prompb.Chunk) (err : error) (ts : prompb.TimeSeries) :
  Forall (fun c => snd (parseSamples (prompb.Data c)) = None) before ->
  snd (parseSamples (prompb.Data chunk)) = Some err ->
  fetch_chunks ts (before ++ chunk :: after) = Err err.
Proof.
  intros Hclean Herr. revert ts.
  induction Hclean as [|c before Hc _ IH]; intros ts; simpl.
  - destruct (parseSamples (prompb.Data chunk)) as [samples e].
    simpl in Herr. subst e. reflexivity.
  - destruct (parseSamples (prompb.Data c)) as [samples e].
    simpl in Hc. subst e. apply IH.
Qed.

(** *** The loop over the series entries of a message *)

Lemma accumulate_onto_cons (ts : prompb.TimeSeries) (s : prompb.ChunkedSeries)
    (series : list prompb.ChunkedSeries) :
  accumulate_onto ts (s :: series) =
  accumulate_onto
    (prompb.mkTimeSeries (prompb.Labels ts ++ prompb.Series_Labels s)
                         (prompb.Samples ts ++ series_samples s))
    series.
Proof. unfold accumulate_onto. simpl. rewrite !app_assoc. reflexivity. Qed.

Lemma accumulate_onto_empty (series : list prompb.ChunkedSeries) :
  accumulate_onto (prompb.mkTimeSeries [] []) series = accumulated series.
Proof. reflexivity. Qed.

Lemma deliveries_cons (ts : prompb.TimeSeries) (s : prompb.ChunkedSeries)
    (series : list prompb.ChunkedSeries) (k : nat) :
  map (fun i => accumulate_onto ts (firstn i (s :: series)))
      (seq 1 (Datatypes.S k)) =
  accumulate_onto ts [s]
  :: map (fun i =>
            accumulate_onto
              (prompb.mkTimeSeries (prompb.Labels ts ++ prompb.Series_Labels s)
                                   (prompb.Samples ts ++ series_samples s))
              (firstn i series))
         (seq 1 k).
Proof.
  simpl. f_equal. rewrite <- seq_shift, map_map.
  apply map_ext. intros i. simpl. apply accumulate_onto_cons.
Qed.

(** The callback is handed, in order, the accumulations of the first
    i = 1..k entries onto [ts], for some k that is the number of entries
    when the loop ends without error. *)
Lemma fetch_series_calls streamCb (series : list prompb.ChunkedSeries) :
  forall (ts : prompb.TimeSeries) st (r : option error) (st' : State W S),
    fetch_series streamCb ts series st = (r, st') ->
    exists k : nat,
      (k <= List.length series)%nat
      /\ callback_calls (trace st') =
         callback_calls (trace st)
         ++ map (fun i => accumulate_onto ts (firstn i series)) (seq 1 k)
      /\ (r = None -> k = List.length series).
Proof.
  induction series as [|s series IH]; intros ts st r st'; simpl.
  - intros [= <- <-]. exists 0%nat. simpl. rewrite app_nil_r. auto.
  - destruct (fetch_chunks _ (prompb.Chunks s)) as [ts2|err] eqn:Hchunks.
    + apply fetch_chunks_Ok in Hchunks. simpl in Hchunks.
      fold (series_samples s) in Hchunks.
      unfold bind, call.
      destruct (streamCb ts2 (sink st)) as [[err|] s1] eqn:Hcb.
      * intros [= <- <-]. exists 1%nat. simpl.
        rewrite callback_calls_app. simpl.
        repeat split; [lia | | discriminate].
        do 2 f_equal. rewrite Hchunks. unfold accumulate_onto. simpl.
        rewrite !app_nil_r. reflexivity.
      * intros Hrest. apply IH in Hrest.
        destruct Hrest as (k & Hk & Hcalls & Hdone).
        exists (Datatypes.S k). split; [lia|]. split.
        -- rewrite deliveries_cons, Hcalls. cbn [trace].
           rewrite callback_calls_app, <- app_assoc. f_equal.
           cbn [callback_calls app]. rewrite Hchunks. f_equal.
           unfold accumulate_onto. cbn [flat_map].
           rewrite !app_nil_r. reflexivity.
        -- intros Hr. rewrite (Hdone Hr). reflexivity.
    + intros [= <- <-]. exists 0%nat. simpl. rewrite app_nil_r.
      repeat split; [lia | discriminate].
Qed.

Lemma fetch_series_app streamCb (before after : list prompb.ChunkedSeries) :
  forall (ts : prompb.TimeSeries) st (st1 : State W S),
    fetch_series streamCb ts before st = (None, st1) ->
    fetch_series streamCb ts (before ++ after) st =
    fetch_series streamCb (accumulate_onto ts before) after st1.
Proof.
  induction before as [|s before IH]; intros ts st st1; simpl.
  - intros [= <-]. unfold accumulate_onto. simpl. rewrite !app_nil_r.
    destruct ts; reflexivity.
  - destruct (fetch_chunks _ (prompb.Chunks s)) as [ts2|err] eqn:Hchunks;
      [|discriminate].
    unfold bind.
    destruct (call streamCb ts2 st) as [[err|] st2]; [discriminate|].
    intros Hrest. rewrite (IH _ _ _ Hrest).
    apply fetch_chunks_Ok in Hchunks. simpl in Hchunks.
    fold (series_samples s) in Hchunks.
    rewrite accumulate_onto_cons, Hchunks. reflexivity.
Qed.

(** *** The loop over the reader *)

Lemma deliveries_prefix (series : list prompb.ChunkedSeries) (k : nat) :
  (k <= List.length series)%nat ->
  map (fun i => accumulated (firstn i series)) (seq 1 (List.length series)) =
  map (fun i => accumulated (firstn i series)) (seq 1 k)
  ++ map (fun i => accumulated (firstn i series))
         (seq (1 + k) (List.length series - k)).
Proof.
  intros Hk. rewrite <- map_app, <- seq_app. do 2 f_equal. lia.
Qed.

Lemma fetch_stream_calls streamCb
    (stream : list (result prompb.ChunkedReadResponse)) :
  forall st (r : option error) (st' : State W S),
    fetch_stream streamCb stream st = (r, st') ->
    exists calls rest : list prompb.TimeSeries,
      callback_calls (trace st') = callback_calls (trace st) ++ calls
      /\ flat_map message_deliveries (leading_messages stream) = calls ++ rest
      /\ (r = None -> rest = []).
Proof.
  induction stream as [|[res|err] stream IH]; intros st r st'; simpl.
  - intros [= <- <-]. exists [], []. rewrite app_nil_r. auto.
  - unfold bind.
    destruct (fetch_series streamCb _ (prompb.ChunkedSeries_ res) st)
      as [[err|] st1] eqn:Hseries;
      apply fetch_series_calls in Hseries;
      destruct Hseries as (k & Hk & Hcalls & Hdone).
    + intros [= <- <-]. eexists. eexists. split; [exact Hcalls|].
      split; [|discriminate].
      unfold message_deliveries at 1.
      rewrite (deliveries_prefix _ Hk), <- app_assoc. reflexivity.
    + intros Hrest. apply IH in Hrest.
      destruct Hrest as (calls & rest & Hcalls' & Hall & Hnone).
      eexists. exists rest. split; [|split; [|exact Hnone]].
      * rewrite Hcalls', Hcalls, <- app_assoc. reflexivity.
      * rewrite Hall, app_assoc. f_equal.
        unfold message_deliveries. rewrite (Hdone eq_refl). reflexivity.
  - destruct (error_eqb err io_EOF); intros [= <- <-];
      exists [], []; rewrite app_nil_r; auto.
Qed.


(** The i-th delivery of a message is the accumulation of its first i
    entries. *)
Lemma message_deliveries_nth (res : prompb.ChunkedReadResponse) (i : nat) :
  (i < List.length (prompb.ChunkedSeries_ res))%nat ->
  nth_error (message_deliveries res) i =
  Some (accumulated (firstn (Datatypes.S i) (prompb.ChunkedSeries_ res))).
Proof.
  intros Hi. unfold message_deliveries.
  rewrite nth_error_map, nth_error_seq.
  destruct (Nat.ltb_spec i (List.length (prompb.ChunkedSeries_ res)));
    [reflexivity | lia].
Qed.

(** Once the messages [before] and the entries [entries] of the next message
    are done, the loop goes on with the rest of that message. *)
Lemma fetch_stream_reach streamCb (before : list prompb.ChunkedReadResponse)
    (entries after : list prompb.ChunkedSeries) (index : Z)
    (res : prompb.ChunkedReadResponse)
    (stream : list (result prompb.ChunkedReadResponse)) :
  prompb.ChunkedSeries_ res = entries ++ after ->
  forall st (st1 : State W S),
    fetch_stream streamCb
      (map Ok before ++ [Ok (prompb.mkChunkedReadResponse entries index)]) st
    = (None, st1) ->
    fetch_stream streamCb (map Ok before ++ Ok res :: stream) st =
    let (r, st2) := fetch_series streamCb (accumulated entries) after st1 in
    match r with
    | Some err => (Some err, st2)
    | None => fetch_stream streamCb stream st2
    end.
Proof.
  intros Hres.
  induction before as [|res0 before IH]; intros st st1; simpl.
  - unfold bind. rewrite Hres.
    destruct (fetch_series streamCb _ entries st) as [[err|] st2] eqn:Hentries;
      [discriminate|].
    intros [= <-]. rewrite (fetch_series_app _ _ after _ _ Hentries).
    rewrite accumulate_onto_empty.
    destruct (fetch_series _ _ after st2) as [[err|] st3]; reflexivity.
  - unfold bind.
    destruct (fetch_series streamCb _ (prompb.ChunkedSeries_ res0) st)
      as [[err|] st2]; [discriminate|].
    apply IH.
Qed.

(** C6: when a chunk of a series entry is corrupt, the chunks before it in
    the entry decode, and the loop of [fetch] gets through the messages and
    entries before that entry (ending in [st1]), [fetch] returns the
    decoding error from the state [st1] with only its deferred calls run:
    the callback is invoked neither for that entry nor later, and receives
    no sample of the corrupt chunk. *)
Theorem fetch_corrupt_chunk (c : Client) (data : list byte) streamCb st
    (resp : Response) (w' : W)
    (before : list prompb.ChunkedReadResponse)
    (res : prompb.ChunkedReadResponse)
    (stream : list (result prompb.ChunkedReadResponse))
    (entries after : list prompb.ChunkedSeries) (s : prompb.ChunkedSeries)
    (chunks chunks' : list prompb.Chunk) (chunk : prompb.Chunk)
    (err : error) (st1 : State W S) :
  url_Parse (addr c ++ remoteReadPath)%string = None ->
  http_Do (fetch_request c data) (world st) = (Ok resp, w') ->
  StatusCode resp = 200 \/ StatusCode resp = 204 ->
  remote_NewChunkedReader (Body resp) = map Ok before ++ Ok res :: stream ->
  prompb.ChunkedSeries_ res = entries ++ s :: after ->
  prompb.Chunks s = chunks ++ chunk :: chunks' ->
  Forall (fun c => snd (parseSamples (prompb.Data c)) = None) chunks ->
  corrupt (prompb.Data chunk) err ->
  fetch_stream streamCb
    (map Ok before
     ++ [Ok (prompb.mkChunkedReadResponse entries (prompb.QueryIndex res))])
    (fetch_entered c data st w')
  = (None, st1) ->
  fetch c data streamCb st = (Some err, fetch_deferred st1)
  /\ callback_calls (trace (fetch_deferred st1)) = callback_calls (trace st1)
  /\ sink (fetch_deferred st1) = sink st1.
Proof.
  intros Hurl Hdo Hstatus Hreader Hres Hchunks Hclean Hcorrupt Hreach.
  split.
  - rewrite (fetch_answered c data streamCb st Hurl Hdo).
    replace (negb (Z.eqb (StatusCode resp) http_StatusNoContent)
             && negb (Z.eqb (StatusCode resp) http_StatusOK)) with false
      by (destruct Hstatus as [-> | ->]; reflexivity).
    rewrite Hreader.
    rewrite fetch_stream_reach
      with (entries := entries) (after := s :: after)
           (index := prompb.QueryIndex res) (st1 := st1);
      [|exact Hres|exact Hreach].
    simpl. rewrite Hchunks.
    rewrite fetch_chunks_corrupt with (err := err);
      [reflexivity | exact Hclean | apply parseSamples_corrupt, Hcorrupt].
  - unfold fetch_deferred. simpl. rewrite callback_calls_app. simpl.
    rewrite app_nil_r. auto.
Qed.

End FetchClient.

(** ** The retry loop of [Read] *)

Section ReadRetry.

Context {W : Type} {collab : Collaborators W} {S : Type}.

Implicit Types (st : State W S) (streamCb : StreamCallback S).

(** [Read] once the query is built and the request is marshalled. *)
Lemma Read_built (c : Client) (filter : Filter) streamCb st
    (q : prompb.Query) (data : list byte) :
  query c filter = Returns (Ok q) ->
  proto_Marshal
    (prompb.mkReadRequest [q] [prompb.ReadRequest_STREAMED_XOR_CHUNKS])
  = Ok data ->
  Read c filter streamCb st =
  let (r, st') := Read_loop c (snappy_Encode data) streamCb attempts 0 st in
  (Returns r, st').
Proof.
  intros Hq Hdata. unfold Read. rewrite Hq, Hdata. reflexivity.
Qed.

(** A failed attempt other than a cancellation is logged, followed by a
    sleep of one second, and the loop goes on. *)
Lemma Read_loop_retry (c : Client) (b : list byte) streamCb (n : nat) (i : Z)
    st (err : error) (st1 : State W S) :
  fetch c b streamCb st = (Some err, st1) ->
  errors_Is err context_Canceled = false ->
  Read_loop c b streamCb (Datatypes.S n) i st =
  Read_loop c b streamCb n (i + 1)
    (mkState (world st1) (sink st1)
       (trace st1
        ++ [EvLogErrorf "attempt %d to fetch data from remote storage: %s"
                        (i + 1) err;
            EvSleep time_Second])).
Proof.
  intros Hfetch Hnot. simpl. unfold bind at 1. rewrite Hfetch, Hnot.
  unfold bind, emit. simpl. rewrite <- app_assoc. reflexivity.
Qed.

(** A cancelled attempt ends the loop in the state the attempt left. *)
Lemma Read_loop_canceled (c : Client) (b : list byte) streamCb (n : nat)
    (i : Z) st (err : error) (st1 : State W S) :
  fetch c b streamCb st = (Some err, st1) ->
  errors_Is err context_Canceled = true ->
  Read_loop c b streamCb (Datatypes.S n) i st =
  (Some (fmt_Errorf "process stoped" []), st1).
Proof.
  intros Hfetch Hcanceled. simpl. unfold bind. rewrite Hfetch, Hcanceled.
  reflexivity.
Qed.

Lemma Read_loop_retries (c : Client) (b : list byte) streamCb
    (n n' : nat) (i i' : Z) st (st' : State W S) :
  retries c b streamCb n i st n' i' st' ->
  Read_loop c b streamCb n i st = Read_loop c b streamCb n' i' st'.
Proof.
  induction 1 as [|n i st err st1 n' i' st' Hfetch Hnot _ IH];
    [reflexivity|].
  rewrite (Read_loop_retry c b streamCb n i st Hfetch Hnot). exact IH.
Qed.

(** The counter is the number of attempts made. *)
Lemma retries_counter (c : Client) (b : list byte) streamCb
    (n n' : nat) (i i' : Z) st (st' : State W S) :
  retries c b streamCb n i st n' i' st' ->
  (n' <= n)%nat /\ i' = i + Z.of_nat (n - n').
Proof.
  induction 1 as [|n i st err st1 n' i' st' _ _ _ IH].
  - split; [lia|]. replace (n - n)%nat with 0%nat by lia. simpl. lia.
  - destruct IH as [Hle ->]. split; [lia|].
    replace (Datatypes.S n - n')%nat with (Datatypes.S (n - n')) by lia. lia.
Qed.

Lemma failed_attempts_retries (c : Client) (b : list byte) streamCb
    (k n' : nat) :
  forall (i i' : Z) st (st' : State W S),
    failed_attempts c b streamCb k i st = Some (i', st') ->
    retries c b streamCb (k + n') i st n' i' st'.
Proof.
  induction k as [|k IH]; intros i i' st st'; simpl.
  - intros [= <- <-]. apply retries_refl.
  - destruct (fetch c b streamCb st) as [[err|] st1] eqn:Hfetch;
      [|discriminate].
    destruct (errors_Is err context_Canceled) eqn:Hnot; [discriminate|].
    intros Hrest. eapply retries_step; eauto.
Qed.

(** C5: when an attempt of the retry loop of [Read], reached through
    attempts that failed otherwise, fails with an error that is
    [context.Canceled], [Read] returns the error "process stoped" in the very
    state that attempt left: no log, no sleep and no further request follow,
    however many attempts are left. *)
Theorem Read_stops_on_cancel (c : Client) (filter : Filter) streamCb st
    (q : prompb.Query) (data : list byte) (n : nat) (i : Z)
    (st1 st2 : State W S) (err : error) :
  query c filter = Returns (Ok q) ->
  proto_Marshal
    (prompb.mkReadRequest [q] [prompb.ReadRequest_STREAMED_XOR_CHUNKS])
  = Ok data ->
  retries c (snappy_Encode data) streamCb attempts 0 st (Datatypes.S n) i st1 ->
  fetch c (snappy_Encode data) streamCb st1 = (Some err, st2) ->
  errors_Is err context_Canceled = true ->
  Read c filter streamCb st =
  (Returns (Some (fmt_Errorf "process stoped" [])), st2).
Proof.
  intros Hq Hdata Hretries Hfetch Hcanceled.
  rewrite (Read_built c filter streamCb st Hq Hdata).
  rewrite (Read_loop_retries Hretries).
  rewrite (Read_loop_canceled c _ streamCb n i st1 Hfetch Hcanceled).
  reflexivity.
Qed.

(** C1, what the code does: when all five attempts fail with an error other
    than cancellation, [Read] returns nil, in the state left by the sleep
    after the fifth attempt.  No exhaustion error is returned. *)
Theorem Read_returns_nil_on_exhaustion (c : Client) (filter : Filter)
    streamCb st (q : prompb.Query) (data : list byte) (i : Z)
    (st' : State W S) :
  query c filter = Returns (Ok q) ->
  proto_Marshal
    (prompb.mkReadRequest [q] [prompb.ReadRequest_STREAMED_XOR_CHUNKS])
  = Ok data ->
  retries c (snappy_Encode data) streamCb attempts 0 st 0 i st' ->
  Read c filter streamCb st = (Returns None, st') /\ i = 5.
Proof.
  intros Hq Hdata Hretries.
  rewrite (Read_built c filter streamCb st Hq Hdata).
  rewrite (Read_loop_retries Hretries). simpl. split; [reflexivity|].
  apply retries_counter in Hretries. destruct Hretries as [_ ->].
  reflexivity.
Qed.

End ReadRetry.

(** ** The properties on the scripted endpoint *)

Lemma query_single_regexp_matcher_witness :
  (Label Mock.job_filter = "" /\ LabelValue Mock.job_filter = "" ->
   [prompb.mkLabelMatcher prompb.LabelMatcher_RE "job" "node.*"] =
   [prompb.mkLabelMatcher prompb.LabelMatcher_RE labels.MetricName ".+"])
  /\ (~ (Label Mock.job_filter = "" /\ LabelValue Mock.job_filter = "") ->
      [prompb.mkLabelMatcher prompb.LabelMatcher_RE "job" "node.*"] =
      [prompb.mkLabelMatcher prompb.LabelMatcher_RE "job" "node.*"]).
Proof.
  apply (query_single_regexp_matcher (collab := Mock.idle) Mock.client
           Mock.job_filter
           (q := prompb.mkQuery 1000 1999
                   [prompb.mkLabelMatcher prompb.LabelMatcher_RE "job" "node.*"])).
  reflexivity.
Defined.

Lemma query_time_range_witness :
  prompb.StartTimestampMs Mock.any_query = 0
  /\ prompb.EndTimestampMs Mock.any_query = Int64.sub 10 1
  /\ (Int64.min_int < 10 <= Int64.max_int ->
      prompb.EndTimestampMs Mock.any_query = 10 - 1)
  /\ List.length (prompb.Matchers Mock.any_query) = 1%nat.
Proof.
  apply (query_time_range (collab := Mock.idle) Mock.client Mock.any_filter).
  reflexivity.
Defined.

Lemma query_panics_on_invalid_regexp_witness :
  exists filter : Filter,
    LabelValue filter = "["
    /\ query (collab := Mock.idle) Mock.client filter =
       Panics (errors_New "error parsing regexp: missing closing ]")
    /\ forall (S : Type) (streamCb : StreamCallback S)
          (st : State (list (result Response)) S),
         Read (collab := Mock.idle) Mock.client filter streamCb st =
         (Panics (errors_New "error parsing regexp: missing closing ]"), st).
Proof.
  apply (query_panics_on_invalid_regexp (collab := Mock.idle)). reflexivity.
Defined.

Lemma query_never_invalid_matcher_witness :
  exists (q : prompb.Query) (m : prompb.LabelMatcher),
    query (collab := Mock.idle) Mock.client Mock.any_filter = Returns (Ok q)
    /\ prompb.Matchers q = [m]
    /\ prompb.Type_ m = prompb.LabelMatcher_RE.
Proof.
  destruct (query_never_invalid_matcher (collab := Mock.idle) Mock.client
              Mock.any_filter eq_refl) as (q & m & Hr & Hm & Hre & _).
  exists q, m. rewrite <- Hr. auto.
Defined.

Lemma fetch_unexpected_status_witness :
  exists st' : State (list (result Response)) (list prompb.TimeSeries),
    fetch (collab := Mock.idle) Mock.client [x0a] Mock.collect
      (Mock.start [Mock.unavailable]) =
    (Some (fmt_Errorf "unexpected response code %d for %s. Response body %q"
             [ArgInt 503;
              ArgStr "http://localhost:9090/api/v1/read";
              ArgBytes [x62; x75; x73; x79]]),
     st')
    /\ trace st' =
       [EvRequest (fetch_request Mock.client [x0a]);
        EvReadAll [x62; x75; x73; x79]; EvBodyClose]
    /\ callback_calls (trace st') = []
    /\ sink st' = [].
Proof.
  apply (fetch_unexpected_status (collab := Mock.idle) Mock.client [x0a]
           Mock.collect (Mock.start [Mock.unavailable])
           (resp := mkResponse 503 [x62; x75; x73; x79]) (w' := []));
    [reflexivity | reflexivity | simpl; lia | simpl; lia].
Defined.

Lemma fetch_no_content_witness :
  exists st' : State (list (result Response)) (list prompb.TimeSeries),
    fetch (collab := Mock.idle) Mock.client [x0a] Mock.collect
      (Mock.start [Ok (mkResponse 204 [])]) = (None, st')
    /\ callback_calls (trace st') = []
    /\ sink st' = [].
Proof.
  apply (fetch_no_content (collab := Mock.idle) Mock.client [x0a]
           Mock.collect (Mock.start [Ok (mkResponse 204 [])])
           (resp := mkResponse 204 []) (w' := []));
    reflexivity.
Defined.


Lemma fetch_corrupt_chunk_witness :
  fetch (collab := Mock.corrupted) Mock.client [x0a] Mock.collect
    (Mock.start [Ok (mkResponse 200 [x01])]) =
  (Some (errors_New "unexpected EOF"), fetch_deferred Mock.before_corrupt)
  /\ callback_calls (trace (fetch_deferred Mock.before_corrupt)) =
     callback_calls (trace Mock.before_corrupt)
  /\ sink (fetch_deferred Mock.before_corrupt) = sink Mock.before_corrupt.
Proof.
  apply (@fetch_corrupt_chunk _ Mock.corrupted _ Mock.client [x0a]
           Mock.collect (Mock.start [Ok (mkResponse 200 [x01])])
           (mkResponse 200 [x01]) [] []
           (prompb.mkChunkedReadResponse
              [Mock.series1; Mock.series_bad; Mock.series2] 0)
           [] [Mock.series1] [Mock.series2] Mock.series_bad
           [prompb.mkChunk 5 5 1 [x05]] []
           (prompb.mkChunk 6 7 1 [x06; xff; x07])
           (errors_New "unexpected EOF") Mock.before_corrupt).
  - reflexivity.
  - reflexivity.
  - left; reflexivity.
  - reflexivity.
  - reflexivity.
  - reflexivity.
  - repeat constructor.
  - apply (corrupt_final (collab := Mock.corrupted) [x06; xff; x07]
             (it := chunkenc.mkIterator [(6, 6, None)]
                      (Some (errors_New "unexpected EOF"))));
      [reflexivity | repeat constructor | reflexivity].
  - reflexivity.
Defined.

Lemma Read_stops_on_cancel_witness :
  exists st2 : State (list (result Response)) (list prompb.TimeSeries),
    Read (collab := Mock.idle) Mock.client Mock.any_filter Mock.collect
      (Mock.start [Mock.unavailable; Mock.cancelled; Mock.unavailable]) =
    (Returns (Some (fmt_Errorf "process stoped" [])), st2)
    /\ world st2 = [Mock.unavailable]
    /\ List.length (trace st2) = 6%nat
    /\ last (trace st2) EvPoolGet = EvRequest (fetch_request Mock.client [x0a]).
Proof.
  eexists. split.
  - eapply (@Read_stops_on_cancel _ Mock.idle _ Mock.client
              Mock.any_filter Mock.collect
              (Mock.start [Mock.unavailable; Mock.cancelled; Mock.unavailable])
              Mock.any_query [x0a] 3 1 Mock.after_one_failure _
              (fmt_ErrorfW
                 "error while sending request to %s: %w; Data len %d(%d)"
                 [ArgStr "http://localhost:9090/api/v1/read";
                  ArgInt 1; ArgInt 1]
                 (fmt_ErrorfW "Post %q: %w"
                    [ArgStr "http://localhost:9090/api/v1/read"]
                    context_Canceled))).
    + reflexivity.
    + reflexivity.
    + eapply retries_step; [reflexivity | reflexivity | apply retries_refl].
    + reflexivity.
    + reflexivity.
  - repeat split.
Defined.

Lemma Read_returns_nil_on_exhaustion_witness :
  (Read (collab := Mock.idle) Mock.client Mock.any_filter Mock.collect
     (Mock.start (repeat Mock.unavailable 5)) = (Returns None, Mock.exhausted)
   /\ 5 = 5)
  /\ world Mock.exhausted = []
  /\ List.length (filter (fun ev => match ev with EvRequest _ => true
                                     | _ => false end)
                         (trace Mock.exhausted)) = 5%nat
  /\ List.length (filter (fun ev => match ev with EvSleep _ => true
                                     | _ => false end)
                         (trace Mock.exhausted)) = 5%nat.
Proof.
  split.
  - apply (@Read_returns_nil_on_exhaustion _ Mock.idle _ Mock.client
             Mock.any_filter Mock.collect
             (Mock.start (repeat Mock.unavailable 5))
             Mock.any_query [x0a] 5 Mock.exhausted);
      [reflexivity | reflexivity |].
    apply (failed_attempts_retries (collab := Mock.idle) Mock.client [x0a]
             Mock.collect 5 0). vm_compute. reflexivity.
  - vm_compute. repeat split.
Defined.

(** * Further properties *)

(** ** Client construction *)

Lemma substring_prefix (a b : string) :
  substring 0 (String.length a) (a ++ b)%string = a.
Proof.
  induction a as [|ch a IH]; simpl.
  - destruct b; reflexivity.
  - rewrite IH. reflexivity.
Qed.

Lemma substring_suffix (a b : string) :
  substring (String.length a) (String.length b) (a ++ b)%string = b.
Proof.
  induction a as [|ch a IH]; simpl; [|exact IH].
  induction b as [|ch b IHb]; simpl; [reflexivity|].
  rewrite IHb. reflexivity.
Qed.

Lemma substring_split (s : string) (n : nat) :
  (n <= String.length s)%nat ->
  s = (substring 0 n s ++ substring n (String.length s - n) s)%string.
Proof.
  revert n. induction s as [|ch s IH]; intros n Hn; simpl in *.
  - destruct n; reflexivity.
  - destruct n as [|n]; simpl.
    + f_equal. clear. induction s as [|c s IHs]; simpl; [reflexivity|].
      rewrite <- IHs. reflexivity.
    + f_equal. apply IH. lia.
Qed.

Lemma String_length_append (a b : string) :
  String.length (a ++ b)%string = (String.length a + String.length b)%nat.
Proof. induction a as [|ch a IH]; simpl; [reflexivity|]. rewrite IH. reflexivity. Qed.

(** [strings.HasSuffix] holds exactly of the strings that end with the
    suffix. *)
Lemma strings_HasSuffix_iff (s suffix : string) :
  strings_HasSuffix s suffix = true <-> exists p, s = (p ++ suffix)%string.
Proof.
  unfold strings_HasSuffix. rewrite andb_true_iff, Nat.leb_le, String.eqb_eq.
  split.
  - intros [Hlen Hsub].
    exists (substring 0 (String.length s - String.length suffix)%nat s).
    rewrite (@substring_split s (String.length s - String.length suffix)%nat)
      at 1 by lia.
    f_equal.
    replace (String.length s - (String.length s - String.length suffix))%nat
      with (String.length suffix) by lia.
    exact Hsub.
  - intros [p ->]. rewrite String_length_append. split; [lia|].
    replace (String.length p + String.length suffix - String.length suffix)%nat
      with (String.length p) by lia.
    apply substring_suffix.
Qed.

Lemma strings_TrimSuffix_append (p suffix : string) :
  strings_TrimSuffix (p ++ suffix) suffix = p.
Proof.
  unfold strings_TrimSuffix.
  replace (strings_HasSuffix (p ++ suffix) suffix) with true
    by (symmetry; apply strings_HasSuffix_iff; eauto).
  rewrite String_length_append.
  replace (String.length p + String.length suffix - String.length suffix)%nat
    with (String.length p) by lia.
  apply substring_prefix.
Qed.

Lemma strings_TrimSuffix_cases (s suffix : string) :
  s = (strings_TrimSuffix s suffix ++ suffix)%string
  \/ (strings_TrimSuffix s suffix = s
      /\ forall p, s <> (p ++ suffix)%string).
Proof.
  destruct (strings_HasSuffix s suffix) eqn:Hsuf.
  - left. apply strings_HasSuffix_iff in Hsuf. destruct Hsuf as [p ->].
    rewrite strings_TrimSuffix_append. reflexivity.
  - right. split.
    + unfold strings_TrimSuffix. rewrite Hsuf. reflexivity.
    + intros p Hp.
      assert (strings_HasSuffix s suffix = true)
        by (apply strings_HasSuffix_iff; eauto).
      congruence.
Qed.

(** X1: [NewClient] fails exactly on an empty address, with the error
    "config.Addr can't be empty"; otherwise it copies the credentials and
    sets a timeout that is the configured one, or 30 seconds when that is
    zero: the timeout of a built client is never zero. *)
Theorem NewClient_result (cfg : Config) :
  (Addr cfg = "" ->
   NewClient cfg = Err (fmt_Errorf "config.Addr can't be empty" []))
  /\ (Addr cfg <> "" ->
      exists (c : Client) (h : http_Client),
        NewClient cfg = Ok (c, h)
        /\ user c = Username cfg
        /\ password c = Password cfg
        /\ Timeout h <> 0
        /\ (ReadTimeout cfg <> 0 -> Timeout h = ReadTimeout cfg)
        /\ (ReadTimeout cfg = 0 -> Timeout h = 30 * 1000000000)).
Proof.
  unfold NewClient. destruct (String.eqb_spec (Addr cfg) "") as [He|Hne].
  - split; [reflexivity | contradiction].
  - split; [contradiction|]. intros _. eexists. eexists.
    split; [reflexivity|]. simpl.
    destruct (Z.eqb_spec (ReadTimeout cfg) 0) as [Hz|Hnz].
    + repeat split; try (intros; contradiction).
      unfold defaultReadTimeout, time_Second. lia.
    + repeat split; auto. intros; contradiction.
Qed.

(** X2: the address of a built client is the configured one with one
    trailing slash removed, if it has one: either the configured address
    is the client's followed by "/", or it does not end in "/" and is kept
    as it is. *)
Theorem NewClient_trims_one_slash (cfg : Config) (c : Client)
    (h : http_Client) :
  NewClient cfg = Ok (c, h) ->
  Addr cfg = (addr c ++ "/")%string
  \/ (addr c = Addr cfg /\ forall p, Addr cfg <> (p ++ "/")%string).
Proof.
  unfold NewClient. destruct (String.eqb (Addr cfg) ""); [discriminate|].
  intros [= <- _]. simpl. apply strings_TrimSuffix_cases.
Qed.

(** X3: the emptiness check precedes the trimming, so a built client has an
    empty address exactly when the configured address is "/". *)
Theorem NewClient_empty_addr_iff (cfg : Config) (c : Client)
    (h : http_Client) :
  NewClient cfg = Ok (c, h) ->
  (addr c = "" <-> Addr cfg = "/").
Proof.
  intros Hnew. unfold NewClient in Hnew.
  destruct (String.eqb_spec (Addr cfg) "") as [|Hne]; [discriminate|].
  injection Hnew as <- _. simpl.
  destruct (strings_TrimSuffix_cases (Addr cfg) "/") as [Heq | [Heq _]].
  - split.
    + intros He. rewrite He in Heq. exact Heq.
    + intros He. rewrite He. reflexivity.
  - rewrite Heq. split; [contradiction|].
    intros He. rewrite He in Heq. discriminate.
Qed.

(** X4: the URL [fetch] posts to never doubles the slash of a configured
    address that ends in one: for the address [base ++ "/"] it is
    [base ++ "/api/v1/read"]. *)
Theorem NewClient_fetch_url (cfg : Config) (c : Client) (h : http_Client)
    (base : string) (data : list byte) :
  NewClient cfg = Ok (c, h) ->
  Addr cfg = (base ++ "/")%string ->
  URL (fetch_request c data) = (base ++ "/api/v1/read")%string
  /\ Method (fetch_request c data) = "POST"
  /\ ReqBody (fetch_request c data) = data.
Proof.
  unfold NewClient. destruct (String.eqb (Addr cfg) ""); [discriminate|].
  intros [= <- _] Haddr. simpl.
  rewrite Haddr, strings_TrimSuffix_append. auto.
Qed.

(** ** Query builder *)

Section QueryBuilderMore.

Context {W : Type} {collab : Collaborators W}.

(** X5: [toLabelMatchers] converts exactly the four named kinds: for a kind
    between 0 and 3 it returns a wire matcher with the same name and value
    and the wire type of the same number; for any other kind it returns the
    error "invalid matcher type". *)
Theorem toLabelMatchers_kinds (matcher : labels.Matcher) :
  (0 <= labels.Type_ matcher <= 3 ->
   exists m : prompb.LabelMatcher,
     toLabelMatchers matcher = Ok m
     /\ prompb.Name m = labels.Name matcher
     /\ prompb.Value m = labels.Value matcher
     /\ LabelMatcher_Type_value (prompb.Type_ m) = labels.Type_ matcher)
  /\ (~ 0 <= labels.Type_ matcher <= 3 ->
      toLabelMatchers matcher = Err (fmt_Errorf "invalid matcher type" [])).
Proof.
  unfold toLabelMatchers, labels.MatchEqual, labels.MatchNotEqual,
    labels.MatchRegexp, labels.MatchNotRegexp.
  destruct (Z.eqb_spec (labels.Type_ matcher) 0) as [H0|H0];
    [split; [intros _; eexists; repeat split; simpl; auto | lia]|].
  destruct (Z.eqb_spec (labels.Type_ matcher) 1) as [H1|H1];
    [split; [intros _; eexists; repeat split; simpl; auto | lia]|].
  destruct (Z.eqb_spec (labels.Type_ matcher) 2) as [H2|H2];
    [split; [intros _; eexists; repeat split; simpl; auto | lia]|].
  destruct (Z.eqb_spec (labels.Type_ matcher) 3) as [H3|H3];
    [split; [intros _; eexists; repeat split; simpl; auto | lia]|].
  split; [lia | reflexivity].
Qed.

(** X6: the query keeps the half-open contract of the filter: when
    [filter.Max] is not the smallest [int64], a timestamp lies in the
    inclusive range of the query exactly when it lies in [Min, Max). *)
Theorem query_half_open (c : Client) (filter : Filter) (q : prompb.Query)
    (t : Z) :
  query c filter = Returns (Ok q) ->
  Int64.min_int < Max filter <= Int64.max_int ->
  (prompb.StartTimestampMs q <= t <= prompb.EndTimestampMs q
   <-> Min filter <= t < Max filter).
Proof.
  rewrite query_eq.
  destruct (NewFastRegexMatcher (query_pattern filter)); [discriminate|].
  intros [= <-] Hmax. simpl. rewrite (Int64_sub_one Hmax). lia.
Qed.

(** X7: at the smallest [int64] the subtraction wraps: a filter with
    [Max] equal to it, whose interval [Min, Max) is empty, yields a query
    whose range runs from [Min] to the largest [int64]. *)
Theorem query_wraps_at_lowest_max (c : Client) (filter : Filter)
    (q : prompb.Query) (t : Z) :
  query c filter = Returns (Ok q) ->
  Max filter = Int64.min_int ->
  prompb.EndTimestampMs q = Int64.max_int
  /\ (Min filter <= t <= Int64.max_int ->
      prompb.StartTimestampMs q <= t <= prompb.EndTimestampMs q).
Proof.
  rewrite query_eq.
  destruct (NewFastRegexMatcher (query_pattern filter)); [discriminate|].
  intros [= <-] Hmax. simpl. rewrite Hmax, Int64_sub_one_wraps. auto.
Qed.

(** X8: [query] panics exactly when the regexp compiler refuses the pattern
    it is given ([.+] for a filter with neither label nor value, the
    filter's value otherwise); it never returns an error. *)
Theorem query_panics_iff (c : Client) (filter : Filter) (v : error) :
  query c filter = Panics v
  <-> NewFastRegexMatcher
        (if String.eqb (Label filter) "" && String.eqb (LabelValue filter) ""
         then ".+" else LabelValue filter) = Some v.
Proof.
  rewrite query_eq. fold (query_pattern filter).
  destruct (NewFastRegexMatcher (query_pattern filter)); split; congruence.
Qed.

(** ** Sample decoder *)

Lemma parseSamples_loop_error (steps : list (Z * float64 * option error))
    (final : option error) :
  forall (samples : list prompb.Sample) (err : error),
    snd (parseSamples_loop steps final samples) = Some err ->
    (exists before ts v e after,
        steps = before ++ (ts, v, Some e) :: after
        /\ Forall (fun step => snd step = None) before
        /\ err = fmt_ErrorfW "error iterate over chunks: %w" [] e)
    \/ (Forall (fun step => snd step = None) steps /\ final = Some err).
Proof.
  induction steps as [|[[ts v] [e|]] steps IH]; intros samples err; simpl.
  - intros ->. right. split; [constructor | reflexivity].
  - intros [= <-]. left. exists [], ts, v, e, steps. repeat split. constructor.
  - intros Herr. apply IH in Herr.
    destruct Herr as [(before & ts' & v' & e & after & -> & Hclean & ->)
                     | [Hclean Hfinal]].
    + left. exists ((ts, v, None) :: before), ts', v', e, after.
      repeat split. constructor; [reflexivity | exact Hclean].
    + right. split; [constructor; [reflexivity | exact Hclean] | exact Hfinal].
Qed.

(** X9: [parseSamples] returns an error exactly when the payload is corrupt:
    malformed for [chunkenc.FromData], or with an error reported by the
    iterator on a step or once it has stopped. *)
Theorem parseSamples_error_iff (data : list byte) (err : error) :
  snd (parseSamples data) = Some err <-> corrupt data err.
Proof.
  split; [|apply parseSamples_corrupt].
  unfold parseSamples.
  destruct (chunkenc_FromData chunkenc.EncXOR data) as [it|e0] eqn:Hfrom.
  - intros Herr. apply parseSamples_loop_error in Herr.
    destruct Herr as [(before & ts & v & e & after & Hsteps & Hclean & ->)
                     | [Hclean Hfinal]].
    + eapply corrupt_step; eauto.
    + eapply corrupt_final; eauto.
  - simpl. intros [= <-]. apply corrupt_payload. exact Hfrom.
Qed.

(** X10: on a payload whose iterator reports no error, [parseSamples]
    returns one sample per step of the iterator, in the iterator's order
    and with its timestamps and values unchanged, and a nil error. *)
Theorem parseSamples_clean (data : list byte) (it : chunkenc.Iterator) :
  chunkenc_FromData chunkenc.EncXOR data = Ok it ->
  Forall (fun step => snd step = None) (chunkenc.steps it) ->
  chunkenc.final it = None ->
  parseSamples data =
  (map (fun step => prompb.mkSample (fst (fst step)) (snd (fst step)))
       (chunkenc.steps it),
   None)
  /\ List.length (fst (parseSamples data)) = List.length (chunkenc.steps it).
Proof.
  intros Hfrom Hclean Hfinal. unfold parseSamples. rewrite Hfrom.
  rewrite parseSamples_loop_clean by assumption. rewrite Hfinal. simpl.
  split; [reflexivity | apply length_map].
Qed.

(** X11: when the iterator reports no error on a step but stops on one,
    [parseSamples] returns that error together with the samples it read
    before: the samples it returns with an error are not nil. *)
Theorem parseSamples_partial_samples (data : list byte)
    (it : chunkenc.Iterator) (err : error) :
  chunkenc_FromData chunkenc.EncXOR data = Ok it ->
  Forall (fun step => snd step = None) (chunkenc.steps it) ->
  chunkenc.final it = Some err ->
  parseSamples data =
  (map (fun step => prompb.mkSample (fst (fst step)) (snd (fst step)))
       (chunkenc.steps it),
   Some err).
Proof.
  intros Hfrom Hclean Hfinal. unfold parseSamples. rewrite Hfrom.
  rewrite parseSamples_loop_clean by assumption. rewrite Hfinal.
  reflexivity.
Qed.

End QueryBuilderMore.

(** ** One fetch attempt *)

Section FetchMore.

Context {W : Type} {collab : Collaborators W} {S : Type}.

Implicit Types (st : State W S) (streamCb : StreamCallback S).

Lemma callback_calls_map (calls : list prompb.TimeSeries) :
  callback_calls (map EvCallback calls) = calls.
Proof. induction calls as [|ts calls IH]; simpl; congruence. Qed.

Lemma count_app (p : Event -> bool) (tr1 tr2 : list Event) :
  count p (tr1 ++ tr2) = (count p tr1 + count p tr2)%nat.
Proof. unfold count. rewrite filter_app, length_app. reflexivity. Qed.

Lemma count_callbacks (p : Event -> bool) (calls : list prompb.TimeSeries) :
  (forall ts, p (EvCallback ts) = false) ->
  count p (map EvCallback calls) = 0%nat.
Proof.
  intros Hp. unfold count.
  induction calls as [|ts calls IH]; simpl; [reflexivity|].
  rewrite Hp. exact IH.
Qed.

(** The loops of [fetch] leave the world alone and add callback events
    only. *)
Lemma fetch_series_trace streamCb (series : list prompb.ChunkedSeries) :
  forall (ts : prompb.TimeSeries) st (r : option error) (st' : State W S),
    fetch_series streamCb ts series st = (r, st') ->
    world st' = world st
    /\ exists calls, trace st' = trace st ++ map EvCallback calls.
Proof.
  induction series as [|s series IH]; intros ts st r st'; simpl.
  - intros [= <- <-]. split; [reflexivity|]. exists []. symmetry. apply app_nil_r.
  - destruct (fetch_chunks _ (prompb.Chunks s)) as [ts2|err].
    + unfold bind, call.
      destruct (streamCb ts2 (sink st)) as [[err|] s1].
      * intros [= <- <-]. split; [reflexivity|]. exists [ts2]. reflexivity.
      * intros Hrest. apply IH in Hrest. simpl in Hrest.
        destruct Hrest as [Hw [calls Htr]]. split; [exact Hw|].
        exists (ts2 :: calls). rewrite Htr, <- app_assoc. reflexivity.
    + intros [= <- <-]. split; [reflexivity|]. exists [].
      symmetry. apply app_nil_r.
Qed.

Lemma fetch_stream_trace streamCb
    (stream : list (result prompb.ChunkedReadResponse)) :
  forall st (r : option error) (st' : State W S),
    fetch_stream streamCb stream st = (r, st') ->
    world st' = world st
    /\ exists calls, trace st' = trace st ++ map EvCallback calls.
Proof.
  induction stream as [|[res|err] stream IH]; intros st r st'; simpl.
  - intros [= <- <-]. split; [reflexivity|]. exists []. symmetry. apply app_nil_r.
  - unfold bind.
    destruct (fetch_series streamCb _ (prompb.ChunkedSeries_ res) st)
      as [[err|] st1] eqn:Hseries;
      apply fetch_series_trace in Hseries;
      destruct Hseries as [Hw [calls Htr]].
    + intros [= <- <-]. eauto.
    + intros Hrest. apply IH in Hrest. destruct Hrest as [Hw' [calls' Htr']].
      split; [congruence|]. exists (calls ++ calls').
      rewrite Htr', Htr, map_app, app_assoc. reflexivity.
  - destruct (error_eqb err io_EOF); intros [= <- <-];
      (split; [reflexivity|]); exists []; symmetry; apply app_nil_r.
Qed.

Lemma fetch_bad_url (c : Client) (data : list byte) streamCb st (err : error) :
  url_Parse (addr c ++ remoteReadPath)%string = Some err ->
  fetch c data streamCb st =
  (Some (fmt_ErrorfW "failed to create new HTTP request: %w" [] err), st).
Proof. intros Hurl. unfold fetch. rewrite Hurl. reflexivity. Qed.

Lemma fetch_not_answered (c : Client) (data : list byte) streamCb st
    (err : error) (w' : W) :
  url_Parse (addr c ++ remoteReadPath)%string = None ->
  http_Do (fetch_request c data) (world st) = (Err err, w') ->
  fetch c data streamCb st =
  (Some (fmt_ErrorfW "error while sending request to %s: %w; Data len %d(%d)"
           [ArgStr (url_Redacted (addr c ++ remoteReadPath)%string);
            ArgInt (Z.of_nat (List.length data));
            ArgInt (Z.of_nat (List.length data))]
           err),
   mkState w' (sink st) (trace st ++ [EvRequest (fetch_request c data)])).
Proof.
  intros Hurl Hdo. unfold fetch. rewrite Hurl.
  unfold bind, Do. rewrite Hdo. reflexivity.
Qed.

(** The events one call of [fetch] adds, whatever its outcome: at most one
    request, then the body read and close on an unexpected status, or the
    buffer taken, callbacks, the buffer returned and the body closed. *)
Lemma fetch_events (c : Client) (data : list byte) streamCb st :
  exists evs : list Event,
    trace (snd (fetch c data streamCb st)) = trace st ++ evs
    /\ (count is_request evs <= 1)%nat
    /\ count is_sleep evs = 0%nat
    /\ count is_log evs = 0%nat.
Proof.
  destruct (url_Parse (addr c ++ remoteReadPath)%string) as [err|] eqn:Hurl.
  { rewrite (fetch_bad_url c data streamCb st Hurl). exists []. simpl.
    rewrite app_nil_r. repeat split. unfold count. simpl. lia. }
  destruct (http_Do (fetch_request c data) (world st)) as [[resp|err] w']
    eqn:Hdo.
  - rewrite (fetch_answered c data streamCb st Hurl Hdo).
    destruct (negb (Z.eqb (StatusCode resp) http_StatusNoContent)
              && negb (Z.eqb (StatusCode resp) http_StatusOK)).
    + eexists. simpl. split; [reflexivity|]. unfold count. simpl.
      repeat split. lia.
    + destruct (fetch_stream _ _ _) as [r st2] eqn:Hstream.
      apply fetch_stream_trace in Hstream.
      destruct Hstream as [_ [calls Htr]]. simpl in *.
      eexists. rewrite Htr, <- !app_assoc. split; [reflexivity|].
      rewrite !count_app, !count_callbacks by reflexivity.
      unfold count. simpl. repeat split. lia.
  - rewrite (fetch_not_answered c data streamCb st Hurl Hdo).
    eexists. simpl. split; [reflexivity|]. unfold count. simpl.
    repeat split. lia.
Qed.

(** X12: when the URL of the read endpoint does not parse, [fetch] fails
    with an error wrapping the parse error and does nothing else: no request
    is sent, the callback is not invoked, the state is unchanged. *)
Theorem fetch_sends_nothing_on_bad_url (c : Client) (data : list byte)
    streamCb st (err : error) :
  url_Parse (addr c ++ remoteReadPath)%string = Some err ->
  exists err' : error,
    fetch c data streamCb st = (Some err', st)
    /\ forall target,
         errors_Is err target = true -> errors_Is err' target = true.
Proof.
  intros Hurl. eexists. split; [apply fetch_bad_url; exact Hurl|].
  intros target. apply errors_Is_wrapped.
Qed.

(** X13: when the transport fails, [fetch] returns an error that wraps the
    transport's ([errors.Is] sees through it, so a cancellation is still a
    cancellation); the request is the only effect and the callback is not
    invoked. *)
Theorem fetch_wraps_transport_error (c : Client) (data : list byte)
    streamCb st (err : error) (w' : W) :
  url_Parse (addr c ++ remoteReadPath)%string = None ->
  http_Do (fetch_request c data) (world st) = (Err err, w') ->
  exists (err' : error) (st' : State W S),
    fetch c data streamCb st = (Some err', st')
    /\ (forall target,
          errors_Is err target = true -> errors_Is err' target = true)
    /\ trace st' = trace st ++ [EvRequest (fetch_request c data)]
    /\ sink st' = sink st.
Proof.
  intros Hurl Hdo. eexists. eexists.
  split; [apply fetch_not_answered; eassumption|].
  split; [intros target; apply errors_Is_wrapped|]. split; reflexivity.
Qed.

(** X14: once a 200 or 204 answer is received, whatever the outcome of the
    attempt (success, stream error, decoding error, callback error), the
    events of [fetch] are the request, the buffer taken from the pool, the
    callbacks, then the buffer returned and the body closed; the world is
    the one the request left. *)
Theorem fetch_releases_on_every_path (c : Client) (data : list byte)
    streamCb st (resp : Response) (w' : W) (r : option error)
    (st' : State W S) :
  url_Parse (addr c ++ remoteReadPath)%string = None ->
  http_Do (fetch_request c data) (world st) = (Ok resp, w') ->
  StatusCode resp = 200 \/ StatusCode resp = 204 ->
  fetch c data streamCb st = (r, st') ->
  world st' = w'
  /\ exists calls : list prompb.TimeSeries,
       trace st' =
       trace st
       ++ [EvRequest (fetch_request c data); EvPoolGet]
       ++ map EvCallback calls
       ++ [EvPoolPut; EvBodyClose; EvBodyClose].
Proof.
  intros Hurl Hdo Hstatus.
  rewrite (fetch_answered c data streamCb st Hurl Hdo).
  replace (negb (Z.eqb (StatusCode resp) http_StatusNoContent)
           && negb (Z.eqb (StatusCode resp) http_StatusOK)) with false
    by (destruct Hstatus as [-> | ->]; reflexivity).
  destruct (fetch_stream _ _ _) as [r2 st2] eqn:Hstream.
  intros [= <- <-]. apply fetch_stream_trace in Hstream.
  destruct Hstream as [Hw [calls Htr]]. simpl in *.
  split; [exact Hw|]. exists calls. rewrite Htr, <- !app_assoc. reflexivity.
Qed.

(** X15: one call of [fetch] sends at most one request, and neither sleeps
    nor logs: it does not retry by itself. *)
Theorem fetch_sends_at_most_one_request (c : Client) (data : list byte)
    streamCb st :
  (count is_request (trace (snd (fetch c data streamCb st)))
   <= count is_request (trace st) + 1)%nat
  /\ count is_sleep (trace (snd (fetch c data streamCb st))) =
     count is_sleep (trace st)
  /\ count is_log (trace (snd (fetch c data streamCb st))) =
     count is_log (trace st).
Proof.
  destruct (fetch_events c data streamCb st) as (evs & -> & Hreq & Hs & Hl).
  rewrite !count_app, Hs, Hl. lia.
Qed.

Lemma fetch_chunks_clean (chunks : list prompb.Chunk) :
  Forall (fun chunk => snd (parseSamples (prompb.Data chunk)) = None) chunks ->
  forall ts : prompb.TimeSeries,
    exists ts2, fetch_chunks ts chunks = Ok ts2.
Proof.
  induction 1 as [|chunk chunks Hc _ IH]; intros ts; simpl; [eauto|].
  destruct (parseSamples (prompb.Data chunk)) as [samples e].
  simpl in Hc. subst e. apply IH.
Qed.

Lemma fetch_series_clean streamCb (series : list prompb.ChunkedSeries) :
  (forall ts s, fst (streamCb ts s) = None) ->
  Forall decodable series ->
  forall (ts : prompb.TimeSeries) st,
    fst (fetch_series streamCb ts series st) = None.
Proof.
  intros Hcb. induction 1 as [|s series Hs _ IH]; intros ts st; simpl;
    [reflexivity|].
  destruct (fetch_chunks_clean Hs
              (prompb.mkTimeSeries (prompb.Labels ts ++ prompb.Series_Labels s)
                                   (prompb.Samples ts)))
    as [ts2 Hchunks].
  rewrite Hchunks.
  unfold bind, call. specialize (Hcb ts2 (sink st)).
  destruct (streamCb ts2 (sink st)) as [e s1]. simpl in Hcb. subst e.
  apply IH.
Qed.

Lemma fetch_stream_clean streamCb (messages : list prompb.ChunkedReadResponse) :
  (forall ts s, fst (streamCb ts s) = None) ->
  Forall clean messages ->
  forall st, fst (fetch_stream streamCb (map Ok messages) st) = None.
Proof.
  intros Hcb. induction 1 as [|res messages Hres _ IH]; intros st; simpl;
    [reflexivity|].
  unfold bind.
  assert (Hseries :
            fst (fetch_series streamCb (prompb.mkTimeSeries [] [])
                   (prompb.ChunkedSeries_ res) st) = None)
    by (apply fetch_series_clean; assumption).
  destruct (fetch_series streamCb _ (prompb.ChunkedSeries_ res) st)
    as [r st1].
  simpl in Hseries. subst r. apply IH.
Qed.

Lemma leading_messages_Ok (messages : list prompb.ChunkedReadResponse) :
  leading_messages (map Ok messages) = messages.
Proof. induction messages as [|res messages IH]; simpl; congruence. Qed.

(** A whole attempt on a clean stream with a callback that accepts every
    series. *)
Lemma fetch_clean (c : Client) (data : list byte) streamCb st
    (resp : Response) (w' : W) (messages : list prompb.ChunkedReadResponse) :
  url_Parse (addr c ++ remoteReadPath)%string = None ->
  http_Do (fetch_request c data) (world st) = (Ok resp, w') ->
  StatusCode resp = 200 \/ StatusCode resp = 204 ->
  remote_NewChunkedReader (Body resp) = map Ok messages ->
  Forall clean messages ->
  (forall ts s, fst (streamCb ts s) = None) ->
  exists st' : State W S,
    fetch c data streamCb st = (None, st')
    /\ world st' = w'
    /\ trace st' =
       trace st
       ++ [EvRequest (fetch_request c data); EvPoolGet]
       ++ map EvCallback (flat_map message_deliveries messages)
       ++ [EvPoolPut; EvBodyClose; EvBodyClose].
Proof.
  intros Hurl Hdo Hstatus Hreader Hclean Hcb.
  rewrite (fetch_answered c data streamCb st Hurl Hdo).
  replace (negb (Z.eqb (StatusCode resp) http_StatusNoContent)
           && negb (Z.eqb (StatusCode resp) http_StatusOK)) with false
    by (destruct Hstatus as [-> | ->]; reflexivity).
  rewrite Hreader.
  assert (Hnone :
            fst (fetch_stream streamCb (map Ok messages)
                   (fetch_entered c data st w')) = None)
    by (apply fetch_stream_clean; assumption).
  destruct (fetch_stream _ _ _) as [r st2] eqn:Hstream.
  simpl in Hnone. subst r.
  destruct (fetch_stream_trace _ _ _ Hstream) as [Hw [calls Htr]].
  apply fetch_stream_calls in Hstream.
  destruct Hstream as (calls' & rest & Hcalls & Hall & Hrest).
  rewrite (Hrest eq_refl), app_nil_r, leading_messages_Ok in Hall.
  rewrite Htr, callback_calls_app, callback_calls_map in Hcalls.
  apply app_inv_head in Hcalls. subst calls' calls.
  eexists. split; [reflexivity|]. simpl in *. split; [exact Hw|].
  rewrite Htr, <- !app_assoc. reflexivity.
Qed.

(** X16: on a 200 or 204 answer whose stream is made of messages that all
    decode, with a callback that accepts every series, [fetch] returns nil
    and has handed the callback every delivery of every message, in stream
    order, between taking and returning the buffer. *)
Theorem fetch_delivers_every_series (c : Client) (data : list byte) streamCb
    st (resp : Response) (w' : W)
    (messages : list prompb.ChunkedReadResponse) :
  url_Parse (addr c ++ remoteReadPath)%string = None ->
  http_Do (fetch_request c data) (world st) = (Ok resp, w') ->
  StatusCode resp = 200 \/ StatusCode resp = 204 ->
  remote_NewChunkedReader (Body resp) = map Ok messages ->
  Forall clean messages ->
  (forall ts s, fst (streamCb ts s) = None) ->
  exists st' : State W S,
    fetch c data streamCb st = (None, st')
    /\ callback_calls (trace st') =
       callback_calls (trace st) ++ flat_map message_deliveries messages
    /\ List.length (flat_map message_deliveries messages) =
       List.length (flat_map prompb.ChunkedSeries_ messages).
Proof.
  intros Hurl Hdo Hstatus Hreader Hclean Hcb.
  destruct (fetch_clean c data streamCb st Hurl Hdo Hstatus Hreader Hclean Hcb)
    as (st' & Hfetch & _ & Htr).
  exists st'. split; [exact Hfetch|]. split.
  - rewrite Htr, !callback_calls_app, callback_calls_map. simpl.
    rewrite app_nil_r. reflexivity.
  - clear. induction messages as [|res messages IH]; simpl; [reflexivity|].
    rewrite !length_app, IH. unfold message_deliveries.
    rewrite length_map, length_seq. reflexivity.
Qed.

Lemma fetch_series_refused streamCb (series : list prompb.ChunkedSeries) :
  (forall ts s, fst (streamCb ts s) <> None) ->
  forall (ts : prompb.TimeSeries) st (r : option error) (st' : State W S),
    fetch_series streamCb ts series st = (r, st') ->
    st' = st
    \/ exists ts2,
         r = fst (streamCb ts2 (sink st))
         /\ st' = mkState (world st) (snd (streamCb ts2 (sink st)))
                          (trace st ++ [EvCallback ts2]).
Proof.
  intros Hcb. destruct series as [|s series]; intros ts st r st'; simpl.
  - intros [= <- <-]. left. reflexivity.
  - destruct (fetch_chunks _ (prompb.Chunks s)) as [ts2|err].
    + unfold bind, call. specialize (Hcb ts2 (sink st)).
      destruct (streamCb ts2 (sink st)) as [[err|] s1] eqn:Hcall.
      * intros [= <- <-]. right. exists ts2. rewrite Hcall. auto.
      * simpl in Hcb. contradiction.
    + intros [= <- <-]. left. reflexivity.
Qed.

Lemma fetch_stream_refused streamCb
    (stream : list (result prompb.ChunkedReadResponse)) :
  (forall ts s, fst (streamCb ts s) <> None) ->
  forall st (r : option error) (st' : State W S),
    fetch_stream streamCb stream st = (r, st') ->
    st' = st
    \/ exists ts2,
         r = fst (streamCb ts2 (sink st))
         /\ st' = mkState (world st) (snd (streamCb ts2 (sink st)))
                          (trace st ++ [EvCallback ts2]).
Proof.
  intros Hcb.
  induction stream as [|[res|err] stream IH]; intros st r st'; simpl.
  - intros [= <- <-]. left. reflexivity.
  - unfold bind.
    destruct (fetch_series streamCb _ (prompb.ChunkedSeries_ res) st)
      as [[err|] st1] eqn:Hseries;
      apply fetch_series_refused in Hseries; try exact Hcb.
    + intros [= <- <-]. exact Hseries.
    + destruct Hseries as [-> | (ts2 & Hr & _)].
      * apply IH.
      * exfalso. apply (Hcb ts2 (sink st)). congruence.
  - destruct (error_eqb err io_EOF); intros [= <- <-]; left; reflexivity.
Qed.

(** X17: with a callback that refuses every series, [fetch] invokes it at
    most once: the attempt ends at the first refusal and returns the
    callback's error as it is. *)
Theorem fetch_stops_at_callback_error (c : Client) (data : list byte)
    streamCb st (r : option error) (st' : State W S) :
  (forall ts s, fst (streamCb ts s) <> None) ->
  fetch c data streamCb st = (r, st') ->
  (callback_calls (trace st') = callback_calls (trace st)
   /\ sink st' = sink st)
  \/ exists ts,
       callback_calls (trace st') = callback_calls (trace st) ++ [ts]
       /\ r = fst (streamCb ts (sink st))
       /\ sink st' = snd (streamCb ts (sink st)).
Proof.
  intros Hcb.
  destruct (url_Parse (addr c ++ remoteReadPath)%string) as [err|] eqn:Hurl.
  { rewrite (fetch_bad_url c data streamCb st Hurl). intros [= <- <-]. auto. }
  destruct (http_Do (fetch_request c data) (world st)) as [[resp|err] w']
    eqn:Hdo.
  - rewrite (fetch_answered c data streamCb st Hurl Hdo).
    destruct (negb (Z.eqb (StatusCode resp) http_StatusNoContent)
              && negb (Z.eqb (StatusCode resp) http_StatusOK)).
    + intros [= <- <-]. left. simpl. rewrite callback_calls_app. simpl.
      rewrite app_nil_r. auto.
    + destruct (fetch_stream _ _ _) as [r2 st2] eqn:Hstream.
      intros [= <- <-].
      apply fetch_stream_refused in Hstream; try exact Hcb.
      destruct Hstream as [-> | (ts2 & Hr & ->)]; simpl.
      * left. rewrite !callback_calls_app. simpl. rewrite !app_nil_r. auto.
      * right. exists ts2. rewrite !callback_calls_app. simpl.
        rewrite !app_nil_r. auto.
  - rewrite (fetch_not_answered c data streamCb st Hurl Hdo).
    intros [= <- <-]. left. simpl. rewrite callback_calls_app. simpl.
    rewrite app_nil_r. auto.
Qed.

Lemma fetch_stream_after streamCb (before : list prompb.ChunkedReadResponse)
    (stream : list (result prompb.ChunkedReadResponse)) :
  forall st (st1 : State W S),
    fetch_stream streamCb (map Ok before) st = (None, st1) ->
    fetch_stream streamCb (map Ok before ++ stream) st =
    fetch_stream streamCb stream st1.
Proof.
  induction before as [|res before IH]; intros st st1; simpl.
  - intros [= <-]. reflexivity.
  - unfold bind.
    destruct (fetch_series streamCb _ (prompb.ChunkedSeries_ res) st)
      as [[err|] st2]; [discriminate|].
    apply IH.
Qed.

(** X18: when the reader fails after the messages [before] have been
    delivered, [fetch] returns the reader's error as it is and reads no
    further; when that error is [io.EOF] itself, the stream is taken as
    ended and [fetch] returns nil.  What follows in the stream is not read
    either way. *)
Theorem fetch_stream_error (c : Client) (data : list byte) streamCb st
    (resp : Response) (w' : W) (before : list prompb.ChunkedReadResponse)
    (err : error) (stream : list (result prompb.ChunkedReadResponse))
    (st1 : State W S) :
  url_Parse (addr c ++ remoteReadPath)%string = None ->
  http_Do (fetch_request c data) (world st) = (Ok resp, w') ->
  StatusCode resp = 200 \/ StatusCode resp = 204 ->
  remote_NewChunkedReader (Body resp) = map Ok before ++ Err err :: stream ->
  fetch_stream streamCb (map Ok before) (fetch_entered c data st w')
  = (None, st1) ->
  (err <> io_EOF ->
   fetch c data streamCb st = (Some err, fetch_deferred st1))
  /\ (err = io_EOF ->
      fetch c data streamCb st = (None, fetch_deferred st1)).
Proof.
  intros Hurl Hdo Hstatus Hreader Hbefore.
  rewrite (fetch_answered c data streamCb st Hurl Hdo).
  replace (negb (Z.eqb (StatusCode resp) http_StatusNoContent)
           && negb (Z.eqb (StatusCode resp) http_StatusOK)) with false
    by (destruct Hstatus as [-> | ->]; reflexivity).
  rewrite Hreader.
  rewrite fetch_stream_after with (st1 := st1) by exact Hbefore. simpl.
  split.
  - intros Hne. destruct (error_eqb err io_EOF) eqn:Heq; [|reflexivity].
    apply error_eqb_EOF in Heq. contradiction.
  - intros ->. reflexivity.
Qed.

End FetchMore.

(** ** The retry loop, continued *)

Section ReadMore.

Context {W : Type} {collab : Collaborators W} {S : Type}.

Implicit Types (st : State W S) (streamCb : StreamCallback S).

Lemma Read_loop_success (c : Client) (b : list byte) streamCb (n : nat)
    (i : Z) st (st1 : State W S) :
  fetch c b streamCb st = (None, st1) ->
  Read_loop c b streamCb (Datatypes.S n) i st = (None, st1).
Proof. intros Hfetch. simpl. unfold bind. rewrite Hfetch. reflexivity. Qed.

Lemma Read_loop_result (c : Client) (b : list byte) streamCb (n : nat) :
  forall (i : Z) st,
    fst (Read_loop c b streamCb n i st) = None
    \/ fst (Read_loop c b streamCb n i st) =
       Some (fmt_Errorf "process stoped" []).
Proof.
  induction n as [|n IH]; intros i st; [left; reflexivity|].
  destruct (fetch c b streamCb st) as [[err|] st1] eqn:Hfetch.
  - destruct (errors_Is err context_Canceled) eqn:Hcanceled.
    + rewrite (Read_loop_canceled c b streamCb n i st Hfetch Hcanceled).
      right. reflexivity.
    + rewrite (Read_loop_retry c b streamCb n i st Hfetch Hcanceled).
      apply IH.
  - rewrite (Read_loop_success c b streamCb n i st Hfetch). left. reflexivity.
Qed.

Lemma Read_loop_bound (c : Client) (b : list byte) streamCb (n : nat) :
  forall (i : Z) st,
    (count is_request (trace (snd (Read_loop c b streamCb n i st)))
     <= count is_request (trace st) + n)%nat
    /\ (count is_sleep (trace (snd (Read_loop c b streamCb n i st)))
        <= count is_sleep (trace st) + n)%nat
    /\ (count is_sleep (trace (snd (Read_loop c b streamCb n i st)))
        + count is_log (trace st)
        = count is_log (trace (snd (Read_loop c b streamCb n i st)))
          + count is_sleep (trace st))%nat.
Proof.
  induction n as [|n IH]; intros i st; [simpl; lia|].
  destruct (fetch_events c b streamCb st) as (evs & Htr & Hreq & Hs & Hl).
  destruct (fetch c b streamCb st) as [[err|] st1] eqn:Hfetch; simpl in Htr.
  - destruct (errors_Is err context_Canceled) eqn:Hcanceled.
    + rewrite (Read_loop_canceled c b streamCb n i st Hfetch Hcanceled).
      simpl. rewrite Htr, !count_app, Hs, Hl. lia.
    + rewrite (Read_loop_retry c b streamCb n i st Hfetch Hcanceled).
      match goal with
      | |- context [Read_loop c b streamCb n ?j ?st2] =>
          specialize (IH j st2); cbn [trace] in IH; revert IH;
          generalize (snd (Read_loop c b streamCb n j st2)); intros final IH
      end.
      rewrite Htr, !count_app, Hs, Hl in IH.
      assert (Hbackoff :
                forall p,
                  count p [EvLogErrorf
                             "attempt %d to fetch data from remote storage: %s"
                             (i + 1) err; EvSleep time_Second] =
                  ((if p (EvLogErrorf
                            "attempt %d to fetch data from remote storage: %s"
                            (i + 1) err) then 1 else 0)
                   + (if p (EvSleep time_Second) then 1 else 0))%nat).
      { intros p. unfold count. simpl.
        destruct (p (EvLogErrorf _ _ _)), (p (EvSleep _)); reflexivity. }
      rewrite !Hbackoff in IH. simpl in IH. lia.
  - rewrite (Read_loop_success c b streamCb n i st Hfetch). simpl.
    rewrite Htr, !count_app, Hs, Hl. lia.
Qed.

(** X19: whatever the endpoint and the callback do, one call of [Read]
    sends at most five requests and sleeps at most five times, and it sleeps
    exactly once per failure it logs. *)
Theorem Read_attempts_bounded (c : Client) (filter : Filter) streamCb st :
  (count is_request (trace (snd (Read c filter streamCb st)))
   <= count is_request (trace st) + 5)%nat
  /\ (count is_sleep (trace (snd (Read c filter streamCb st)))
      <= count is_sleep (trace st) + 5)%nat
  /\ (count is_sleep (trace (snd (Read c filter streamCb st)))
      + count is_log (trace st)
      = count is_log (trace (snd (Read c filter streamCb st)))
        + count is_sleep (trace st))%nat.
Proof.
  unfold Read.
  destruct (query c filter) as [[q|err]|v]; try (simpl; lia).
  destruct (proto_Marshal _) as [data|err]; [|simpl; lia].
  pose proof (Read_loop_bound c (snappy_Encode data) streamCb attempts 0 st)
    as Hbound.
  unfold bind, ret.
  destruct (Read_loop c (snappy_Encode data) streamCb attempts 0 st)
    as [r st']. exact Hbound.
Qed.

(** X20: the only errors [Read] returns are "process stoped" and the wrapped
    marshalling error (with nothing done): the errors of the fetch attempts
    (transport, status, stream, decoding and callback errors) are never
    returned to the caller. *)
Theorem Read_error_kinds (c : Client) (filter : Filter) streamCb st
    (err : error) (st' : State W S) :
  Read c filter streamCb st = (Returns (Some err), st') ->
  err = fmt_Errorf "process stoped" []
  \/ exists (q : prompb.Query) (e : error),
       query c filter = Returns (Ok q)
       /\ proto_Marshal
            (prompb.mkReadRequest [q] [prompb.ReadRequest_STREAMED_XOR_CHUNKS])
          = Err e
       /\ err = fmt_ErrorfW "unable to marshal read request: %w" [] e
       /\ st' = st.
Proof.
  unfold Read. rewrite query_eq.
  destruct (NewFastRegexMatcher (query_pattern filter)); [discriminate|].
  destruct (proto_Marshal _) as [data|e] eqn:Hdata.
  - unfold bind, ret.
    pose proof (Read_loop_result c (snappy_Encode data) streamCb attempts 0 st)
      as Hres.
    destruct (Read_loop c (snappy_Encode data) streamCb attempts 0 st)
      as [r st2]. simpl in Hres.
    intros [= -> <-]. destruct Hres as [Hres | Hres]; [discriminate|].
    left. congruence.
  - intros [= <- <-]. right. eexists. eexists. eauto.
Qed.

(** X21: when an attempt of the retry loop, reached through failed
    attempts, succeeds, [Read] returns nil in the state that attempt left:
    no sleep follows a success. *)
Theorem Read_succeeds_after_retries (c : Client) (filter : Filter) streamCb
    st (q : prompb.Query) (data : list byte) (n : nat) (i : Z)
    (st1 st2 : State W S) :
  query c filter = Returns (Ok q) ->
  proto_Marshal
    (prompb.mkReadRequest [q] [prompb.ReadRequest_STREAMED_XOR_CHUNKS])
  = Ok data ->
  retries c (snappy_Encode data) streamCb attempts 0 st (Datatypes.S n) i st1 ->
  fetch c (snappy_Encode data) streamCb st1 = (None, st2) ->
  Read c filter streamCb st = (Returns None, st2).
Proof.
  intros Hq Hdata Hretries Hfetch.
  rewrite (Read_built c filter streamCb st Hq Hdata).
  rewrite (Read_loop_retries Hretries).
  rewrite (Read_loop_success c _ streamCb n i st1 Hfetch). reflexivity.
Qed.

(** X22: when the first answer is a 200 or 204 whose stream decodes and the
    callback accepts every series, [Read] returns nil after that single
    attempt: one request, every delivery of every message handed to the
    callback, no log and no sleep. *)
Theorem Read_first_attempt (c : Client) (filter : Filter) streamCb st
    (q : prompb.Query) (data : list byte) (resp : Response) (w' : W)
    (messages : list prompb.ChunkedReadResponse) :
  query c filter = Returns (Ok q) ->
  proto_Marshal
    (prompb.mkReadRequest [q] [prompb.ReadRequest_STREAMED_XOR_CHUNKS])
  = Ok data ->
  url_Parse (addr c ++ remoteReadPath)%string = None ->
  http_Do (fetch_request c (snappy_Encode data)) (world st) = (Ok resp, w') ->
  StatusCode resp = 200 \/ StatusCode resp = 204 ->
  remote_NewChunkedReader (Body resp) = map Ok messages ->
  Forall clean messages ->
  (forall ts s, fst (streamCb ts s) = None) ->
  exists st' : State W S,
    Read c filter streamCb st = (Returns None, st')
    /\ trace st' =
       trace st
       ++ [EvRequest (fetch_request c (snappy_Encode data)); EvPoolGet]
       ++ map EvCallback (flat_map message_deliveries messages)
       ++ [EvPoolPut; EvBodyClose; EvBodyClose].
Proof.
  intros Hq Hdata Hurl Hdo Hstatus Hreader Hclean Hcb.
  destruct (fetch_clean c (snappy_Encode data) streamCb st Hurl Hdo Hstatus
              Hreader Hclean Hcb) as (st' & Hfetch & _ & Htr).
  exists st'. split; [|exact Htr].
  rewrite (Read_built c filter streamCb st Hq Hdata).
  unfold attempts.
  rewrite (Read_loop_success c _ streamCb 4 0 st Hfetch). reflexivity.
Qed.

(** One attempt against an endpoint whose first series entry decodes, with
    a callback that refuses it. *)
Lemma fetch_refused_first (c : Client) (data : list byte) streamCb st
    (resp : Response) (w' : W) (res : prompb.ChunkedReadResponse)
    (stream : list (result prompb.ChunkedReadResponse))
    (s : prompb.ChunkedSeries) (series : list prompb.ChunkedSeries)
    (err : error) :
  url_Parse (addr c ++ remoteReadPath)%string = None ->
  http_Do (fetch_request c data) (world st) = (Ok resp, w') ->
  StatusCode resp = 200 \/ StatusCode resp = 204 ->
  remote_NewChunkedReader (Body resp) = Ok res :: stream ->
  prompb.ChunkedSeries_ res = s :: series ->
  decodable s ->
  fst (streamCb (accumulated [s]) (sink st)) = Some err ->
  exists st1 : State W S,
    fetch c data streamCb st = (Some err, st1)
    /\ callback_calls (trace st1) =
       callback_calls (trace st) ++ [accumulated [s]].
Proof.
  intros Hurl Hdo Hstatus Hreader Hres Hs Hcb.
  rewrite (fetch_answered c data streamCb st Hurl Hdo).
  replace (negb (Z.eqb (StatusCode resp) http_StatusNoContent)
           && negb (Z.eqb (StatusCode resp) http_StatusOK)) with false
    by (destruct Hstatus as [-> | ->]; reflexivity).
  rewrite Hreader. simpl. rewrite Hres. simpl.
  destruct (fetch_chunks_clean Hs
              (prompb.mkTimeSeries ([] ++ prompb.Series_Labels s) []))
    as [ts2 Hchunks].
  simpl in Hchunks. rewrite Hchunks.
  apply fetch_chunks_Ok in Hchunks. simpl in Hchunks.
  assert (Hts2 : ts2 = accumulated [s]).
  { rewrite Hchunks. unfold accumulated, series_samples. simpl.
    rewrite !app_nil_r. reflexivity. }
  clear Hchunks. subst ts2.
  unfold bind, call. simpl.
  destruct (streamCb (accumulated [s]) (sink st)) as [e s1].
  simpl in Hcb. subst e.
  eexists. split; [reflexivity|].
  simpl. rewrite !callback_calls_app. simpl. rewrite !app_nil_r.
  reflexivity.
Qed.

Lemma Read_loop_refused (c : Client) (b : list byte) streamCb
    (resp : Response) (res : prompb.ChunkedReadResponse)
    (stream : list (result prompb.ChunkedReadResponse))
    (s : prompb.ChunkedSeries) (series : list prompb.ChunkedSeries) :
  url_Parse (addr c ++ remoteReadPath)%string = None ->
  (forall w, exists w', http_Do (fetch_request c b) w = (Ok resp, w')) ->
  StatusCode resp = 200 \/ StatusCode resp = 204 ->
  remote_NewChunkedReader (Body resp) = Ok res :: stream ->
  prompb.ChunkedSeries_ res = s :: series ->
  decodable s ->
  (forall ts x, exists err,
      fst (streamCb ts x) = Some err
      /\ errors_Is err context_Canceled = false) ->
  forall (n : nat) (i : Z) st,
    exists st' : State W S,
      Read_loop c b streamCb n i st = (None, st')
      /\ callback_calls (trace st') =
         callback_calls (trace st) ++ repeat (accumulated [s]) n.
Proof.
  intros Hurl Hdo Hstatus Hreader Hres Hs Hcb.
  induction n as [|n IH]; intros i st.
  - exists st. simpl. rewrite app_nil_r. auto.
  - destruct (Hdo (world st)) as [w' Hdo'].
    destruct (Hcb (accumulated [s]) (sink st)) as (err & Herr & Hnot).
    destruct (fetch_refused_first c b streamCb st Hurl Hdo' Hstatus
                Hreader Hres Hs Herr) as (st1 & Hfetch & Hcalls).
    rewrite (Read_loop_retry c b streamCb n i st Hfetch Hnot).
    match goal with
    | |- context [Read_loop c b streamCb n ?j ?st2] =>
        destruct (IH j st2) as (st' & Hloop & Hcalls')
    end.
    exists st'. split; [exact Hloop|].
    rewrite Hcalls'. simpl trace. rewrite callback_calls_app, Hcalls. simpl.
    rewrite app_nil_r, <- app_assoc. reflexivity.
Qed.

(** X23: a callback error does not reach the caller of [Read]: against an
    endpoint that answers every request with the same 200 or 204 stream,
    whose first series entry decodes, and with a callback that refuses every
    series with an error other than cancellation, [Read] starts over five
    times, hands the callback that same first series five times, and
    returns nil. *)
Theorem Read_swallows_callback_errors (c : Client) (filter : Filter) streamCb
    st (q : prompb.Query) (data : list byte) (resp : Response)
    (res : prompb.ChunkedReadResponse)
    (stream : list (result prompb.ChunkedReadResponse))
    (s : prompb.ChunkedSeries) (series : list prompb.ChunkedSeries) :
  query c filter = Returns (Ok q) ->
  proto_Marshal
    (prompb.mkReadRequest [q] [prompb.ReadRequest_STREAMED_XOR_CHUNKS])
  = Ok data ->
  url_Parse (addr c ++ remoteReadPath)%string = None ->
  (forall w, exists w',
      http_Do (fetch_request c (snappy_Encode data)) w = (Ok resp, w')) ->
  StatusCode resp = 200 \/ StatusCode resp = 204 ->
  remote_NewChunkedReader (Body resp) = Ok res :: stream ->
  prompb.ChunkedSeries_ res = s :: series ->
  decodable s ->
  (forall ts x, exists err,
      fst (streamCb ts x) = Some err
      /\ errors_Is err context_Canceled = false) ->
  exists st' : State W S,
    Read c filter streamCb st = (Returns None, st')
    /\ callback_calls (trace st') =
       callback_calls (trace st) ++ repeat (accumulated [s]) 5.
Proof.
  intros Hq Hdata Hurl Hdo Hstatus Hreader Hres Hs Hcb.
  destruct (Read_loop_refused c (snappy_Encode data) streamCb Hurl Hdo
              Hstatus Hreader Hres Hs Hcb attempts 0 st)
    as (st' & Hloop & Hcalls).
  exists st'. split; [|exact Hcalls].
  rewrite (Read_built c filter streamCb st Hq Hdata), Hloop. reflexivity.
Qed.

End ReadMore.

(** ** Liveness probe *)

Section PingProperties.

Context {W : Type} {collab : Collaborators W} {probe : DefaultClient W}
        {S : Type}.

Implicit Types (st : State W S).

(** X24: once the health request is answered, [Ping] returns nil exactly
    when the status is 200; any other status, 204 included, gives the error
    "bad status code" with the code.  One request is sent, to the health
    path, with the default client. *)
Theorem Ping_healthy_iff_200 (c : Client) st (resp : Response) (w' : W)
    (r : option error) (st' : State W S) :
  url_Parse (addr c ++ healthPath)%string = None ->
  DefaultClient_Do (Ping_request c) (world st) = (Ok resp, w') ->
  Ping c st = (r, st') ->
  (r = None <-> StatusCode resp = 200)
  /\ (StatusCode resp <> 200 ->
      r = Some (fmt_Errorf "bad status code: %d" [ArgInt (StatusCode resp)]))
  /\ st' = mkState w' (sink st) (trace st ++ [EvRequest (Ping_request c)]).
Proof.
  intros Hurl Hdo. unfold Ping. rewrite Hurl. unfold bind. rewrite Hdo.
  unfold http_StatusOK.
  destruct (Z.eqb_spec (StatusCode resp) 200) as [H200|H200]; simpl;
    intros [= <- <-].
  - repeat split; auto. intros; contradiction.
  - repeat split; auto; intros; [discriminate | contradiction].
Qed.

(** X25: when the transport of the health request fails, [Ping] returns the
    transport's error itself, not a wrapper, after that single request: it
    does not retry. *)
Theorem Ping_returns_transport_error (c : Client) st (err : error) (w' : W) :
  url_Parse (addr c ++ healthPath)%string = None ->
  DefaultClient_Do (Ping_request c) (world st) = (Err err, w') ->
  Ping c st =
  (Some err,
   mkState w' (sink st) (trace st ++ [EvRequest (Ping_request c)])).
Proof.
  intros Hurl Hdo. unfold Ping. rewrite Hurl. unfold bind. rewrite Hdo.
  reflexivity.
Qed.

(** X26: [Ping] sends at most one request and never sleeps, whatever the
    endpoint does; when the health URL does not parse it sends none and
    leaves the state as it was. *)
Theorem Ping_sends_at_most_one_request (c : Client) st :
  (count is_request (trace (snd (Ping c st)))
   <= count is_request (trace st) + 1)%nat
  /\ count is_sleep (trace (snd (Ping c st))) = count is_sleep (trace st)
  /\ (url_Parse (addr c ++ healthPath)%string <> None ->
      snd (Ping c st) = st /\ fst (Ping c st) <> None).
Proof.
  unfold Ping.
  destruct (url_Parse (addr c ++ healthPath)%string) as [err|].
  - simpl. split; [lia|]. split; [reflexivity|].
    intros _. split; [reflexivity | discriminate].
  - unfold bind.
    destruct (DefaultClient_Do (Ping_request c) (world st)) as [[resp|err] w'];
      [destruct (negb (Z.eqb (StatusCode resp) http_StatusOK))|];
      simpl; unfold count; rewrite !filter_app, !length_app; simpl;
      (split; [lia | split; [lia | intros Hne; contradiction]]).
Qed.

End PingProperties.

(** ** The further properties on the scripted endpoints *)

Lemma NewClient_trims_one_slash_witness :
  Addr MockProbe.config = (addr MockProbe.secured ++ "/")%string
  \/ (addr MockProbe.secured = Addr MockProbe.config
      /\ forall p, Addr MockProbe.config <> (p ++ "/")%string).
Proof.
  apply (@NewClient_trims_one_slash MockProbe.config MockProbe.secured
           (mkhttp_Client 30000000000)).
  reflexivity.
Defined.

Lemma NewClient_empty_addr_iff_witness :
  addr (mkClient "" "" "") = "" <-> Addr (mkConfig "/" 5 "" "") = "/".
Proof.
  apply (@NewClient_empty_addr_iff (mkConfig "/" 5 "" "") (mkClient "" "" "")
           (mkhttp_Client 5)).
  reflexivity.
Defined.

Lemma NewClient_fetch_url_witness :
  URL (fetch_request MockProbe.secured [x0a]) =
  "http://localhost:9090/api/v1/read"
  /\ Method (fetch_request MockProbe.secured [x0a]) = "POST"
  /\ ReqBody (fetch_request MockProbe.secured [x0a]) = [x0a].
Proof.
  apply (@NewClient_fetch_url MockProbe.config MockProbe.secured
           (mkhttp_Client 30000000000) "http://localhost:9090" [x0a]);
    reflexivity.
Defined.

Lemma query_half_open_witness :
  prompb.StartTimestampMs MockProbe.job_query <= 1500
    <= prompb.EndTimestampMs MockProbe.job_query
  <-> Min Mock.job_filter <= 1500 < Max Mock.job_filter.
Proof.
  apply (@query_half_open _ Mock.idle Mock.client Mock.job_filter
           MockProbe.job_query 1500).
  - reflexivity.
  - cbv. split; [reflexivity | discriminate].
Defined.

Lemma query_wraps_at_lowest_max_witness :
  prompb.EndTimestampMs MockProbe.lowest_query = Int64.max_int
  /\ (Min MockProbe.lowest_filter <= 100 <= Int64.max_int ->
      prompb.StartTimestampMs MockProbe.lowest_query <= 100
        <= prompb.EndTimestampMs MockProbe.lowest_query).
Proof.
  apply (@query_wraps_at_lowest_max _ Mock.idle Mock.client
           MockProbe.lowest_filter MockProbe.lowest_query 100);
    reflexivity.
Defined.

Lemma parseSamples_clean_witness :
  parseSamples (collab := Mock.idle) [x01; x02] =
  (map (fun step => prompb.mkSample (fst (fst step)) (snd (fst step)))
       (chunkenc.steps MockProbe.two_steps),
   None)
  /\ List.length (fst (parseSamples (collab := Mock.idle) [x01; x02])) =
     List.length (chunkenc.steps MockProbe.two_steps).
Proof.
  apply (@parseSamples_clean _ Mock.idle [x01; x02] MockProbe.two_steps);
    [reflexivity | repeat constructor | reflexivity].
Defined.

Lemma parseSamples_partial_samples_witness :
  parseSamples (collab := Mock.idle) [x06; xff; x07] =
  (map (fun step => prompb.mkSample (fst (fst step)) (snd (fst step)))
       (chunkenc.steps MockProbe.truncated),
   Some (errors_New "unexpected EOF")).
Proof.
  apply (@parseSamples_partial_samples _ Mock.idle [x06; xff; x07]
           MockProbe.truncated);
    [reflexivity | repeat constructor | reflexivity].
Defined.

Lemma fetch_sends_nothing_on_bad_url_witness :
  exists err' : error,
    fetch (collab := MockProbe.strict) MockProbe.schemeless [x0a]
      Mock.collect (Mock.start [Mock.unavailable]) =
    (Some err', Mock.start [Mock.unavailable])
    /\ forall target,
         errors_Is (errors_New "missing protocol scheme") target = true ->
         errors_Is err' target = true.
Proof.
  apply (@fetch_sends_nothing_on_bad_url _ MockProbe.strict _
           MockProbe.schemeless [x0a] Mock.collect
           (Mock.start [Mock.unavailable])
           (errors_New "missing protocol scheme")).
  reflexivity.
Defined.

Lemma fetch_wraps_transport_error_witness :
  exists (err' : error)
         (st' : State (list (result Response)) (list prompb.TimeSeries)),
    fetch (collab := Mock.idle) Mock.client [x0a] Mock.collect
      (Mock.start [Mock.cancelled]) = (Some err', st')
    /\ (forall target,
          errors_Is
            (fmt_ErrorfW "Post %q: %w"
               [ArgStr "http://localhost:9090/api/v1/read"] context_Canceled)
            target = true ->
          errors_Is err' target = true)
    /\ trace st' =
       trace (Mock.start [Mock.cancelled])
       ++ [EvRequest (fetch_request Mock.client [x0a])]
    /\ sink st' = sink (Mock.start [Mock.cancelled]).
Proof.
  apply (@fetch_wraps_transport_error _ Mock.idle _ Mock.client [x0a]
           Mock.collect (Mock.start [Mock.cancelled])
           (fmt_ErrorfW "Post %q: %w"
              [ArgStr "http://localhost:9090/api/v1/read"] context_Canceled)
           []);
    reflexivity.
Defined.

Lemma fetch_releases_on_every_path_witness :
  world (snd (fetch (collab := Mock.corrupted) Mock.client [x0a]
                Mock.collect (Mock.start [Ok (mkResponse 200 [x01])]))) = []
  /\ exists calls : list prompb.TimeSeries,
       trace (snd (fetch (collab := Mock.corrupted) Mock.client [x0a]
                     Mock.collect (Mock.start [Ok (mkResponse 200 [x01])]))) =
       trace (Mock.start [Ok (mkResponse 200 [x01])])
       ++ [EvRequest (fetch_request Mock.client [x0a]); EvPoolGet]
       ++ map EvCallback calls
       ++ [EvPoolPut; EvBodyClose; EvBodyClose].
Proof.
  apply (@fetch_releases_on_every_path _ Mock.corrupted _ Mock.client [x0a]
           Mock.collect (Mock.start [Ok (mkResponse 200 [x01])])
           (mkResponse 200 [x01]) []
           (fst (fetch (collab := Mock.corrupted) Mock.client [x0a]
                   Mock.collect (Mock.start [Ok (mkResponse 200 [x01])]))));
    [reflexivity | reflexivity | left; reflexivity | apply surjective_pairing].
Defined.

Lemma fetch_delivers_every_series_witness :
  exists st' : State (list (result Response)) (list prompb.TimeSeries),
    fetch (collab := Mock.two_messages) Mock.client [x0a] Mock.collect
      (Mock.start [Ok (mkResponse 200 [x01])]) = (None, st')
    /\ callback_calls (trace st') =
       callback_calls (trace (Mock.start [Ok (mkResponse 200 [x01])]))
       ++ flat_map (message_deliveries (collab := Mock.two_messages))
            [prompb.mkChunkedReadResponse [Mock.series1; Mock.series2] 0;
             prompb.mkChunkedReadResponse [Mock.series2] 0]
    /\ List.length
         (flat_map (message_deliveries (collab := Mock.two_messages))
            [prompb.mkChunkedReadResponse [Mock.series1; Mock.series2] 0;
             prompb.mkChunkedReadResponse [Mock.series2] 0]) =
       List.length
         (flat_map prompb.ChunkedSeries_
            [prompb.mkChunkedReadResponse [Mock.series1; Mock.series2] 0;
             prompb.mkChunkedReadResponse [Mock.series2] 0]).
Proof.
  apply (@fetch_delivers_every_series _ Mock.two_messages _ Mock.client [x0a]
           Mock.collect (Mock.start [Ok (mkResponse 200 [x01])])
           (mkResponse 200 [x01]) []
           [prompb.mkChunkedReadResponse [Mock.series1; Mock.series2] 0;
            prompb.mkChunkedReadResponse [Mock.series2] 0]).
  - reflexivity.
  - reflexivity.
  - left; reflexivity.
  - reflexivity.
  - unfold clean, decodable. simpl. repeat constructor.
  - intros ts s. reflexivity.
Defined.

Lemma fetch_stops_at_callback_error_witness :
  (callback_calls
     (trace (snd (fetch (collab := Mock.two_messages) Mock.client [x0a]
                    MockProbe.refuse
                    (Mock.start [Ok (mkResponse 200 [x01])])))) =
   callback_calls (trace (Mock.start [Ok (mkResponse 200 [x01])]))
   /\ sink (snd (fetch (collab := Mock.two_messages) Mock.client [x0a]
                   MockProbe.refuse
                   (Mock.start [Ok (mkResponse 200 [x01])]))) =
      sink (Mock.start [Ok (mkResponse 200 [x01])]))
  \/ exists ts,
       callback_calls
         (trace (snd (fetch (collab := Mock.two_messages) Mock.client [x0a]
                        MockProbe.refuse
                        (Mock.start [Ok (mkResponse 200 [x01])])))) =
       callback_calls (trace (Mock.start [Ok (mkResponse 200 [x01])])) ++ [ts]
       /\ fst (fetch (collab := Mock.two_messages) Mock.client [x0a]
                 MockProbe.refuse (Mock.start [Ok (mkResponse 200 [x01])])) =
          fst (MockProbe.refuse ts
                 (sink (Mock.start [Ok (mkResponse 200 [x01])])))
       /\ sink (snd (fetch (collab := Mock.two_messages) Mock.client [x0a]
                       MockProbe.refuse
                       (Mock.start [Ok (mkResponse 200 [x01])]))) =
          snd (MockProbe.refuse ts
                 (sink (Mock.start [Ok (mkResponse 200 [x01])]))).
Proof.
  apply (@fetch_stops_at_callback_error _ Mock.two_messages _ Mock.client
           [x0a] MockProbe.refuse (Mock.start [Ok (mkResponse 200 [x01])])).
  - intros ts s. discriminate.
  - apply surjective_pairing.
Defined.

Lemma fetch_stream_error_witness :
  (errors_New "unexpected EOF" <> io_EOF ->
   fetch (collab := MockProbe.broken) Mock.client [x0a] Mock.collect
     (Mock.start [Ok (mkResponse 200 [x01])]) =
   (Some (errors_New "unexpected EOF"),
    fetch_deferred
      (snd (fetch_stream (collab := MockProbe.broken) Mock.collect
              (map Ok [prompb.mkChunkedReadResponse [Mock.series1] 0])
              (fetch_entered Mock.client [x0a]
                 (Mock.start [Ok (mkResponse 200 [x01])]) [])))))
  /\ (errors_New "unexpected EOF" = io_EOF ->
      fetch (collab := MockProbe.broken) Mock.client [x0a] Mock.collect
        (Mock.start [Ok (mkResponse 200 [x01])]) =
      (None,
       fetch_deferred
         (snd (fetch_stream (collab := MockProbe.broken) Mock.collect
                 (map Ok [prompb.mkChunkedReadResponse [Mock.series1] 0])
                 (fetch_entered Mock.client [x0a]
                    (Mock.start [Ok (mkResponse 200 [x01])]) []))))).
Proof.
  apply (@fetch_stream_error _ MockProbe.broken _ Mock.client [x0a]
           Mock.collect (Mock.start [Ok (mkResponse 200 [x01])])
           (mkResponse 200 [x01]) []
           [prompb.mkChunkedReadResponse [Mock.series1] 0]
           (errors_New "unexpected EOF")
           [Ok (prompb.mkChunkedReadResponse [Mock.series2] 0)]);
    [reflexivity | reflexivity | left; reflexivity | reflexivity
    | vm_compute; reflexivity].
Defined.

Lemma Read_error_kinds_witness :
  fmt_Errorf "process stoped" [] = fmt_Errorf "process stoped" []
  \/ exists (q : prompb.Query) (e : error),
       query (collab := Mock.idle) Mock.client Mock.any_filter =
       Returns (Ok q)
       /\ proto_Marshal (Collaborators := Mock.idle)
            (prompb.mkReadRequest [q] [prompb.ReadRequest_STREAMED_XOR_CHUNKS])
          = Err e
       /\ fmt_Errorf "process stoped" [] =
          fmt_ErrorfW "unable to marshal read request: %w" [] e
       /\ snd (Read (collab := Mock.idle) Mock.client Mock.any_filter
                 Mock.collect (Mock.start [Mock.cancelled])) =
          Mock.start [Mock.cancelled].
Proof.
  apply (@Read_error_kinds _ Mock.idle _ Mock.client Mock.any_filter
           Mock.collect (Mock.start [Mock.cancelled])
           (fmt_Errorf "process stoped" [])
           (snd (Read (collab := Mock.idle) Mock.client Mock.any_filter
                   Mock.collect (Mock.start [Mock.cancelled])))).
  vm_compute. reflexivity.
Defined.

Lemma Read_succeeds_after_retries_witness :
  Read (collab := Mock.two_messages) Mock.client Mock.any_filter Mock.collect
    MockProbe.recovering =
  (Returns None,
   snd (fetch (collab := Mock.two_messages) Mock.client [x0a] Mock.collect
          MockProbe.after_failure)).
Proof.
  apply (@Read_succeeds_after_retries _ Mock.two_messages _ Mock.client
           Mock.any_filter Mock.collect MockProbe.recovering Mock.any_query
           [x0a] 3 1 MockProbe.after_failure).
  - reflexivity.
  - reflexivity.
  - apply (@failed_attempts_retries _ Mock.two_messages _ Mock.client [x0a]
             Mock.collect 1 4 0 1 MockProbe.recovering
             MockProbe.after_failure).
    vm_compute. reflexivity.
  - vm_compute. reflexivity.
Defined.

Lemma Read_first_attempt_witness :
  exists st' : State (list (result Response)) (list prompb.TimeSeries),
    Read (collab := Mock.two_messages) Mock.client Mock.any_filter
      Mock.collect (Mock.start [Ok (mkResponse 204 [x01])]) =
    (Returns None, st')
    /\ trace st' =
       trace (Mock.start [Ok (mkResponse 204 [x01])])
       ++ [EvRequest (fetch_request Mock.client [x0a]); EvPoolGet]
       ++ map EvCallback
            (flat_map (message_deliveries (collab := Mock.two_messages))
               [prompb.mkChunkedReadResponse [Mock.series1; Mock.series2] 0;
                prompb.mkChunkedReadResponse [Mock.series2] 0])
       ++ [EvPoolPut; EvBodyClose; EvBodyClose].
Proof.
  apply (@Read_first_attempt _ Mock.two_messages _ Mock.client
           Mock.any_filter Mock.collect
           (Mock.start [Ok (mkResponse 204 [x01])]) Mock.any_query [x0a]
           (mkResponse 204 [x01]) []
           [prompb.mkChunkedReadResponse [Mock.series1; Mock.series2] 0;
            prompb.mkChunkedReadResponse [Mock.series2] 0]).
  - reflexivity.
  - reflexivity.
  - reflexivity.
  - reflexivity.
  - right; reflexivity.
  - reflexivity.
  - unfold clean, decodable. simpl. repeat constructor.
  - intros ts s. reflexivity.
Defined.

Lemma Read_swallows_callback_errors_witness :
  exists st' : State nat (list prompb.TimeSeries),
    Read (collab := MockProbe.steady) Mock.client Mock.any_filter
      MockProbe.refuse (mkState 0%nat [] []) = (Returns None, st')
    /\ callback_calls (trace st') =
       callback_calls (trace (mkState 0%nat
                                (@nil prompb.TimeSeries) (@nil Event)))
       ++ repeat (accumulated (collab := MockProbe.steady) [Mock.series1]) 5.
Proof.
  apply (@Read_swallows_callback_errors _ MockProbe.steady _ Mock.client
           Mock.any_filter MockProbe.refuse (mkState 0%nat [] [])
           Mock.any_query [x0a] (mkResponse 200 [x01])
           (prompb.mkChunkedReadResponse [Mock.series1; Mock.series2] 0)
           [] Mock.series1 [Mock.series2]).
  - reflexivity.
  - reflexivity.
  - reflexivity.
  - intros w. eexists. reflexivity.
  - left; reflexivity.
  - reflexivity.
  - reflexivity.
  - unfold decodable. simpl. repeat constructor.
  - intros ts x. eexists. split; reflexivity.
Defined.

Lemma Ping_healthy_iff_200_witness :
  (fst (Ping (collab := Mock.idle) (probe := MockProbe.health)
          MockProbe.secured (Mock.start [Ok (mkResponse 204 [])])) = None
   <-> StatusCode (mkResponse 204 []) = 200)
  /\ (StatusCode (mkResponse 204 []) <> 200 ->
      fst (Ping (collab := Mock.idle) (probe := MockProbe.health)
             MockProbe.secured (Mock.start [Ok (mkResponse 204 [])])) =
      Some (fmt_Errorf "bad status code: %d"
              [ArgInt (StatusCode (mkResponse 204 []))]))
  /\ snd (Ping (collab := Mock.idle) (probe := MockProbe.health)
            MockProbe.secured (Mock.start [Ok (mkResponse 204 [])])) =
     mkState [] (sink (Mock.start [Ok (mkResponse 204 [])]))
       (trace (Mock.start [Ok (mkResponse 204 [])])
        ++ [EvRequest (Ping_request MockProbe.secured)]).
Proof.
  apply (@Ping_healthy_iff_200 _ Mock.idle MockProbe.health _
           MockProbe.secured (Mock.start [Ok (mkResponse 204 [])])
           (mkResponse 204 []) []);
    [reflexivity | reflexivity | apply surjective_pairing].
Defined.

Lemma Ping_returns_transport_error_witness :
  Ping (collab := Mock.idle) (probe := MockProbe.health) MockProbe.secured
    (Mock.start []) =
  (Some (errors_New "connection refused"),
   mkState [] (sink (Mock.start []))
     (trace (Mock.start []) ++ [EvRequest (Ping_request MockProbe.secured)])).
Proof.
  apply (@Ping_returns_transport_error _ Mock.idle MockProbe.health _
           MockProbe.secured (Mock.start []) (errors_New "connection refused")
           []);
    reflexivity.
Defined.
